(** * ai-news-dashboard: the fetch-and-sanitize pipeline and the page script

    A shallow embedding of [app.py].  Python values are modelled as the
    interpreter has them: a [str] is a sequence of Unicode code points, an
    [int] is an unbounded integer, a raised exception is a value of [exn]
    threaded through the [result] monad.  The third-party calls the script
    makes ([html.escape], [re.sub], [urllib.parse.quote], [datetime],
    [feedparser], Streamlit's widgets and cache decorator) are modelled by
    their documented behaviour, each next to the place the script uses it. *)

From Stdlib Require Import ZArith NArith List String Ascii Lia Bool.
From Stdlib Require Import DecimalString DecimalN.
From stdpp Require Import base option list gmap strings.

Set Default Proof Using "Type".

(** ** Python values *)

(** A Python [str]: a list of code points. [len] is [length]. *)
Abbreviation char := N (only parsing).
Abbreviation pystr := (list N) (only parsing).

(** An ASCII literal of the script, as a [pystr]. *)
Definition str (s : string) : pystr :=
  map N_of_ascii (list_ascii_of_string s).

Inductive exn : Type :=
  | AttributeError (attr : string)
  | TypeError
  | ValueError
  | UnicodeEncodeError
  | OtherError (msg : string).

(** The outcome of evaluating a Python expression. *)
Inductive result (A : Type) : Type :=
  | Ok (a : A)
  | Raise (e : exn).
Arguments Ok {A} a.
Arguments Raise {A} e.

Global Instance result_ret : MRet result := fun _ a => Ok a.
Global Instance result_bind : MBind result := fun _ _ f m =>
  match m with
  | Ok a => f a
  | Raise e => Raise e
  end.

(** [try: body  except Exception: handler] *)
Definition try_except {A} (body : result A) (handler : A) : A :=
  match body with
  | Ok a => a
  | Raise _ => handler
  end.

(** [getattr(obj, name, default)] on an attribute that may be missing. *)
Definition getattr {A} (attr : option A) (dflt : A) : A :=
  match attr with
  | Some a => a
  | None => dflt
  end.

(** [obj.name]: a missing attribute raises [AttributeError]. *)
Definition attr {A} (name : string) (a : option A) : result A :=
  match a with
  | Some v => Ok v
  | None => Raise (AttributeError name)
  end.

(** [l[:n]] for a Python [int] [n]: a negative bound counts from the end. *)
Definition slice_to {A} (l : list A) (n : Z) : list A :=
  if (n <? 0)%Z then firstn (Z.to_nat (Z.of_nat (length l) + n)) l
  else firstn (Z.to_nat n) l.

(** ** Characters the script names *)

Definition LT : char := 60%N.         (* < *)
Definition GT : char := 62%N.         (* > *)
Definition AMP : char := 38%N.        (* & *)
Definition QUOT : char := 34%N.       (* double quote *)
Definition APOS : char := 39%N.       (* single quote *)
Definition ELLIPSIS : char := 8230%N. (* U+2026, the one-character mark *)

(** ** [str.strip()] *)

(** [str.isspace] for one character: the code points CPython's
    [_PyUnicode_IsWhitespace] accepts. *)
Definition isspace (c : char) : bool :=
  ((9 <=? c) && (c <=? 13) || (28 <=? c) && (c <=? 32)
   || (c =? 133) || (c =? 160) || (c =? 5760)
   || (8192 <=? c) && (c <=? 8202)
   || (c =? 8232) || (c =? 8233) || (c =? 8239) || (c =? 8287)
   || (c =? 12288))%N.

Fixpoint lstrip (s : pystr) : pystr :=
  match s with
  | [] => []
  | c :: rest => if isspace c then lstrip rest else s
  end.

Definition rstrip (s : pystr) : pystr := rev (lstrip (rev s)).

Definition strip (s : pystr) : pystr := rstrip (lstrip s).

(** ** [re.sub(r"<[^>]+>", "", s)] *)

(** The text after the first [>] of [s], if there is one. *)
Fixpoint after_gt (s : pystr) : option pystr :=
  match s with
  | [] => None
  | c :: rest => if (c =? GT)%N then Some rest else after_gt rest
  end.

(** One attempt to match [<[^>]+>] at the start of [s]: a [<], then at
    least one character that is not [>], greedily up to the next [>].
    On success, the text that follows the match. *)
Definition tag_match (s : pystr) : option pystr :=
  match s with
  | c :: d :: rest =>
      if (c =? LT)%N && negb (d =? GT)%N then after_gt rest else None
  | _ => None
  end.

(** The substitution scans left to right: where the pattern matches, the
    match is dropped and the scan resumes after it; elsewhere the
    character is kept.  [fuel] bounds the number of scan steps. *)
Fixpoint re_sub_tags_scan (fuel : nat) (s : pystr) : pystr :=
  match fuel with
  | O => s
  | S fuel' =>
      match s with
      | [] => []
      | c :: rest =>
          match tag_match s with
          | Some s' => re_sub_tags_scan fuel' s'
          | None => c :: re_sub_tags_scan fuel' rest
          end
      end
  end.

Definition re_sub_tags (s : pystr) : pystr := re_sub_tags_scan (length s) s.

(** ** [html.escape(s)] (with its default [quote=True]) *)

(** [s.replace(c, by)] for a one-character pattern [c]. *)
Definition replace (c : char) (by_ : pystr) (s : pystr) : pystr :=
  flat_map (fun x => if (x =? c)%N then by_ else [x]) s.

Definition escape (s : pystr) : pystr :=
  let s := replace AMP (str "&amp;") s in
  let s := replace LT (str "&lt;") s in
  let s := replace GT (str "&gt;") s in
  let s := replace QUOT (str "&quot;") s in
  let s := replace APOS (str "&#x27;") s in
  s.

(** ** [urllib.parse.quote(s)] (with its default [safe='/'])  *)

(** The UTF-8 bytes of one character; a lone surrogate cannot be encoded. *)
Definition utf8_encode_char (c : char) : result (list N) :=
  (if c <? 128 then Ok [c]
   else if c <? 2048 then
     Ok [N.lor 192 (N.shiftr c 6); N.lor 128 (N.land c 63)]
   else if c <? 65536 then
     if (55296 <=? c) && (c <=? 57343) then Raise UnicodeEncodeError
     else Ok [N.lor 224 (N.shiftr c 12);
              N.lor 128 (N.land (N.shiftr c 6) 63);
              N.lor 128 (N.land c 63)]
   else if c <? 1114112 then
     Ok [N.lor 240 (N.shiftr c 18);
         N.lor 128 (N.land (N.shiftr c 12) 63);
         N.lor 128 (N.land (N.shiftr c 6) 63);
         N.lor 128 (N.land c 63)]
   else Raise UnicodeEncodeError)%N.

Fixpoint utf8_encode (s : pystr) : result (list N) :=
  match s with
  | [] => Ok []
  | c :: rest =>
      bs ← utf8_encode_char c;
      bs' ← utf8_encode rest;
      mret (bs ++ bs')
  end.

(** Bytes [quote] leaves alone: letters, digits, [_.-~] and the safe [/]. *)
Definition quote_safe (b : N) : bool :=
  ((65 <=? b) && (b <=? 90) || (97 <=? b) && (b <=? 122)
   || (48 <=? b) && (b <=? 57)
   || (b =? 95) || (b =? 46) || (b =? 45) || (b =? 126) || (b =? 47))%N.

Definition hex_digit (n : N) : char :=
  (if n <? 10 then 48 + n else 55 + n)%N.

Definition quote_byte (b : N) : pystr :=
  if quote_safe b then [b]
  else [37%N; hex_digit (N.shiftr b 4); hex_digit (N.land b 15)].

Definition quote (s : pystr) : result pystr :=
  bs ← utf8_encode s;
  mret (flat_map quote_byte bs).

(** ** The [datetime] constructor and [strftime] *)

Record datetime : Type := mk_datetime {
  year : Z; month : Z; day : Z; hour : Z; minute : Z; second : Z
}.

Definition is_leap (y : Z) : bool :=
  ((y mod 4 =? 0) && (negb (y mod 100 =? 0) || (y mod 400 =? 0)))%Z.

Definition days_in_month (y m : Z) : Z :=
  (if m =? 2 then (if is_leap y then 29 else 28)
   else if (m =? 4) || (m =? 6) || (m =? 9) || (m =? 11) then 30
   else 31)%Z.

(** The range checks of the [datetime] constructor ([ValueError]). *)
Definition check_datetime (dt : datetime) : result datetime :=
  (if (1 <=? year dt) && (year dt <=? 9999)
      && (1 <=? month dt) && (month dt <=? 12)
      && (1 <=? day dt) && (day dt <=? days_in_month (year dt) (month dt))
      && (0 <=? hour dt) && (hour dt <=? 23)
      && (0 <=? minute dt) && (minute dt <=? 59)
      && (0 <=? second dt) && (second dt <=? 59)
   then Ok dt else Raise ValueError)%Z.

(** The constructor call on the unpacked [parts], for the at most six
    positional arguments that
    [published_parsed[:6]] can supply; year, month and day are required
    ([TypeError] without them). *)
Definition datetime_new (parts : list Z) : result datetime :=
  match parts with
  | [y; m; d] => check_datetime (mk_datetime y m d 0 0 0)
  | [y; m; d; h] => check_datetime (mk_datetime y m d h 0 0)
  | [y; m; d; h; mi] => check_datetime (mk_datetime y m d h mi 0)
  | [y; m; d; h; mi; s] => check_datetime (mk_datetime y m d h mi s)
  | _ => Raise TypeError
  end.

Definition digit (n : Z) : char := (48 + Z.to_N (n mod 10))%N.

Definition pad2 (n : Z) : pystr := [digit (n / 10); digit n].

(** A number that is not negative, written in decimal without padding. *)
Definition decimal (n : Z) : pystr :=
  str (NilZero.string_of_uint (N.to_uint (Z.to_N n))).

(** [dt.strftime("%Y年%m月%d日 %H:%M")]: U+5E74, U+6708 and U+65E5 between
    the fields.  Month, day, hour and minute are padded to two digits;
    the year is written by the C library, which on Linux (glibc) does not
    pad it: year 999 gives three digits. *)
Definition strftime (dt : datetime) : pystr :=
  decimal (year dt) ++ [24180%N] ++ pad2 (month dt) ++ [26376%N]
  ++ pad2 (day dt) ++ [26085%N; 32%N]
  ++ pad2 (hour dt) ++ [58%N] ++ pad2 (minute dt).

(** ** The Fetcher: [fetch_news] *)

(** A feed entry as [feedparser] hands it over: a dictionary read through
    attributes, any of which may be missing.  [published_parsed], when
    present, is [None] or a time tuple. *)
Module Entry.
Record t : Type := mk {
  title : option pystr;
  link : option pystr;
  published_parsed : option (option (list Z));
  published : option pystr;
  summary : option pystr
}.
End Entry.

(** The result of [feedparser.parse]: [bozo] is set when the retrieval or
    the parse met an error the parser absorbed. *)
Record feed : Type := mk_feed {
  bozo : bool;
  entries : list Entry.t
}.

(** The dictionary appended to [articles]: its four keys. *)
Record article : Type := mk_article {
  title : pystr;
  link : pystr;
  published : pystr;
  summary : pystr
}.

(** The text shown for an entry without a usable summary
    (nine characters, U+8981 ... U+3002). *)
Definition NO_SUMMARY : pystr :=
  [35201; 32004; 12399; 12354; 12426; 12414; 12379; 12435; 12290]%N.

(** Lines 147-156: the value of [published] after the date block. *)
Definition entry_published (e : Entry.t) : pystr :=
  match Entry.published_parsed e with
  | Some (Some (x :: tm)) =>
      (* hasattr(entry, "published_parsed") and entry.published_parsed *)
      try_except
        (dt ← datetime_new (slice_to (x :: tm) 6); mret (strftime dt))
        (getattr (Entry.published e) [])
  | _ =>
      match Entry.published e with
      | Some p => p                   (* elif hasattr(entry, "published") *)
      | None => []
      end
  end.

(** Lines 159-163: the value of [summary] before it is escaped. *)
Definition entry_summary (e : Entry.t) : pystr :=
  let summary := getattr (Entry.summary e) [] in
  let summary := strip (re_sub_tags summary) in
  if (300 <? length summary)%nat then firstn 300 summary ++ [ELLIPSIS]
  else summary.

(** Line 167: [escape(summary) if summary else ...]. *)
Definition safe_summary_of (summary : pystr) : pystr :=
  match summary with
  | [] => NO_SUMMARY
  | _ :: _ => escape summary
  end.

(** One turn of the loop over the entries (lines 146-174). *)
Definition fetch_news_entry (e : Entry.t) : result article :=
  let published := entry_published e in
  let summary := entry_summary e in
  t ← attr "title" (Entry.title e);
  let safe_title := escape t in
  let safe_summary := safe_summary_of summary in
  l ← attr "link" (Entry.link e);
  mret {| title := safe_title; link := l;
          published := published; summary := safe_summary |}.

(** The loop: each article is appended to [articles]; an exception ends it. *)
Fixpoint fetch_news_loop (es : list Entry.t) (articles : list article)
  : result (list article) :=
  match es with
  | [] => Ok articles
  | e :: es' =>
      a ← fetch_news_entry e;
      fetch_news_loop es' (articles ++ [a])
  end.

Definition feed_url (encoded : pystr) : pystr :=
  str "https://news.google.com/rss/search"
  ++ str "?q=" ++ encoded ++ str "&hl=ja&gl=JP&ceid=JP:ja".

(** [fetch_news(query, num)], with the call to [feedparser.parse] taken as
    the parameter [parse]: what the parser returns, or raises, for a URL. *)
Definition fetch_news (parse : pystr → result feed) (query : pystr) (num : Z)
  : result (list article * pystr) :=
  encoded ← quote query;
  let url := feed_url encoded in
  feed ← parse url;
  articles ← fetch_news_loop (slice_to (entries feed) num) [];
  mret (articles, url).

(** * The Presenter *)

(** ** The card grid (lines 254-276) *)

(** [<div class="...">], the quotes written out. *)
Definition div_open (class : string) : pystr :=
  str "<div class=" ++ [QUOT] ++ str class ++ [QUOT] ++ str ">".

(** The f-string passed to [st.markdown] for one article. *)
Definition card (a : article) : pystr :=
  div_open "news-card"
  ++ str "  " ++ div_open "card-title" ++ title a ++ str "</div>"
  ++ str "  " ++ div_open "card-date"
     ++ [128467; 65039; 32]%N ++ published a ++ str "</div>"
  ++ str "  " ++ div_open "card-summary" ++ summary a ++ str "</div>"
  ++ str "  " ++ div_open "card-link"
  ++ str "    <a href=" ++ [QUOT] ++ link a ++ [QUOT]
     ++ str " target=" ++ [QUOT] ++ str "_blank" ++ [QUOT] ++ str ">"
     ++ [128214; 32; 20803; 35352; 20107; 12434; 35501; 12416]%N
     ++ str "</a>"
  ++ str "  </div>"
  ++ str "</div>".

(** The message drawn when there is no article. *)
Definition empty_state : pystr :=
  div_open "empty-state"
  ++ [128532; 32; 12491; 12517; 12540; 12473; 12364; 35211; 12388; 12363;
      12426; 12414; 12379; 12435; 12391; 12375; 12383; 12290]%N
  ++ str "<br>"
  ++ [26908; 32034; 12461; 12540; 12527; 12540; 12489; 12434; 22793; 12360;
      12390; 12362; 35430; 12375; 12367; 12384; 12373; 12356; 12290]%N
  ++ str "</div>".

(** The loop over [enumerate(articles)], from index [idx] on: each card is
    drawn at the end of the column [left if idx % 2 == 0 else right]. *)
Fixpoint place_cards (idx : nat) (articles : list article)
    (left right : list pystr) : list pystr * list pystr :=
  match articles with
  | [] => (left, right)
  | a :: rest =>
      if idx mod 2 =? 0 then place_cards (S idx) rest (left ++ [card a]) right
      else place_cards (S idx) rest left (right ++ [card a])
  end.

(** What the main area shows below the stat badges. *)
Inductive main_area : Type :=
  | Cards (left right : list pystr)
  | EmptyState (html : pystr).

Definition render_articles (articles : list article) : main_area :=
  match articles with
  | [] => EmptyState empty_state
  | _ :: _ => let columns := place_cards 0 articles [] [] in
              Cards (fst columns) (snd columns)
  end.

(** Lines 221-276: the call of [fetch_news] with the query and the number
    from the sidebar, the number of articles shown in the first badge, and
    what is drawn below the badges. *)
Definition main_content (parse : pystr → result feed) (query : pystr)
    (num_articles : Z) : result (nat * main_area) :=
  r ← fetch_news parse query num_articles;
  let articles := fst r in
  mret (length articles, render_articles articles).

(** ** The sidebar: the query field and the quick tags (lines 178-199) *)

(** ChatGPT, 生成AI, LLM, 機械学習, ロボティクス, 自動運転 *)
Definition quick_tags : list pystr :=
  [ str "ChatGPT";
    [29983; 25104; 65; 73]%N;
    str "LLM";
    [27231; 26800; 23398; 32722]%N;
    [12525; 12508; 12486; 12451; 12463; 12473]%N;
    [33258; 21205; 36939; 36578]%N ].

(** [st.session_state.pop(key, default)] *)
Definition pop (key : string) (dflt : pystr) (ss : gmap string pystr)
  : pystr * gmap string pystr :=
  match ss !! key with
  | Some v => (v, delete key ss)
  | None => (dflt, ss)
  end.

(** The text field on the page: the [value] it was created with and the
    text it shows now (what the user typed last, if anything). *)
Record text_field : Type := mk_text_field {
  created_with : pystr;
  shown : pystr
}.

(** [st.text_input(label, value=v, placeholder=...)], called without a
    key: Streamlit identifies a widget by its parameters.  Label and
    placeholder are constants of the script, so the field on the page is
    this widget when it was created with the same [value], and its text is
    returned; otherwise a new field replaces it and shows [value]. *)
Definition text_input (page : option text_field) (value : pystr)
  : pystr * option text_field :=
  match page with
  | Some w =>
      if decide (created_with w = value) then (shown w, Some w)
      else (value, Some (mk_text_field value value))
  | None => (value, Some (mk_text_field value value))
  end.

(** What lives from one run of the script to the next: the entries of
    [st.session_state] that the script itself reads and writes, and the
    text field.  The entries Streamlit keeps for keyed widgets (the
    buttons' [tag_...] keys) are not part of this record. *)
Record session : Type := mk_session {
  session_state : gmap string pystr;
  field : option text_field
}.

(** The user types [text] into the field on the page. *)
Definition type_text (text : pystr) (s : session) : session :=
  match field s with
  | Some w => mk_session (session_state s)
                         (Some (mk_text_field (created_with w) text))
  | None => s
  end.

(** The loop over the quick tags: [st.button(tag)] is true in the run its
    click started; the first such tag is stored and [st.rerun()] ends the
    run ([true] in the result). *)
Fixpoint tag_buttons (clicked : pystr → bool) (tags : list pystr)
    (ss : gmap string pystr) : gmap string pystr * bool :=
  match tags with
  | [] => (ss, false)
  | tag :: rest =>
      if clicked tag then (<["quick_query" := tag]> ss, true)
      else tag_buttons clicked rest ss
  end.

(** How a run of the script ends: with [st.rerun()], before anything is
    fetched, or with the call [fetch_news(query, num_articles)] and the
    rendering of its result. *)
Inductive run_end : Type :=
  | Rerun
  | Fetch (query : pystr) (num_articles : Z).

(** One run of the script, given which button was clicked and where the
    slider stands. *)
Definition script_run (clicked : pystr → bool) (num_articles : Z) (s : session)
  : session * run_end :=
  let '(default_query, ss) :=
    pop "quick_query" (str "Artificial Intelligence") (session_state s) in
  let '(query, page) := text_input (field s) default_query in
  let '(ss, rerun) := tag_buttons clicked quick_tags ss in
  (mk_session ss page, if rerun then Rerun else Fetch query num_articles).

Definition click (tag : pystr) : pystr → bool := λ t, bool_decide (t = tag).
Definition no_click : pystr → bool := λ _, false.

(** * The cache in front of [fetch_news] (line 135) *)

(** The time to live the script passes to the decorator, in seconds. *)
Definition ttl : Z := 300.

(** A stored result and the time of the call that stored it. *)
Record cached : Type := mk_cached {
  stored_at : Z;
  value : list article * pystr
}.

(** Modelled from the spec: the decorator [st.cache_data] is Streamlit's
    and the repository only applies it to [fetch_news].  Following the
    spec (sections 5 and 9) it is a time-bounded memoization keyed by
    (query, limit), a small expiring key-value map: a call whose key holds
    a value younger than the time to live returns that value and does not
    run the function; any other call runs it and, when it returns, stores
    the result with the time of the call.  Here a call is made at time
    [now], the network answering [net now]; the boolean tells whether the
    function ran, each run requesting the feed once. *)
Definition cached_fetch_news (net : Z → pystr → result feed) (now : Z)
    (query : pystr) (num : Z) (cache : gmap (pystr * Z) cached)
  : result (list article * pystr) * gmap (pystr * Z) cached * bool :=
  let miss :=
    match fetch_news (net now) query num with
    | Ok v => (Ok v, <[(query, num) := mk_cached now v]> cache, true)
    | Raise x => (Raise x, cache, true)
    end in
  match cache !! (query, num) with
  | Some c => if (now <? stored_at c + ttl)%Z then (Ok (value c), cache, false)
              else miss
  | None => miss
  end.

(** * Auxiliary definitions and fixtures *)

(** ** Views used by the proofs *)

(** What [html.escape] writes for one character. *)
Definition escape_char (c : char) : pystr :=
  if (c =? AMP)%N then str "&amp;"
  else if (c =? LT)%N then str "&lt;"
  else if (c =? GT)%N then str "&gt;"
  else if (c =? QUOT)%N then str "&quot;"
  else if (c =? APOS)%N then str "&#x27;"
  else [c].

(** [quote] raises only on text that is not well-formed Unicode. *)
Definition scalar (c : char) : bool :=
  ((c <? 55296) || (57343 <? c) && (c <? 1114112))%N.

(** The Gregorian leap years. *)
Definition leap_year (y : Z) : Prop :=
  (y mod 4 = 0 ∧ (y mod 100 ≠ 0 ∨ y mod 400 = 0))%Z.

(** The time tuples the [datetime] constructor accepts, said without the
    code: a year from 1 to 9999, a day that exists in the month of that
    year, a time of day. *)
Definition valid_date_time (y m d h mi s : Z) : Prop :=
  (1 ≤ y ≤ 9999 ∧ 1 ≤ m ≤ 12 ∧ 1 ≤ d ≤ 31 ∧
   (m = 4 ∨ m = 6 ∨ m = 9 ∨ m = 11 → d ≤ 30) ∧
   (m = 2 → d ≤ 29) ∧ (m = 2 → d = 29 → leap_year y) ∧
   0 ≤ h ≤ 23 ∧ 0 ≤ mi ≤ 59 ∧ 0 ≤ s ≤ 59)%Z.

(** A character [quote] may write: a safe one, or the percent sign. *)
Definition url_char (c : char) : bool := quote_safe c || (c =? 37)%N.

(** No tag starts anywhere in [s]. *)
Fixpoint no_tag (s : pystr) : Prop :=
  match s with
  | [] => True
  | c :: rest => tag_match (c :: rest) = None ∧ no_tag rest
  end.

(** A character [html.escape] rewrites. *)
Definition special (c : char) : bool :=
  ((c =? AMP) || (c =? LT) || (c =? GT) || (c =? QUOT) || (c =? APOS))%N.

(** ** Fixtures: a parser that serves one fixed feed, entries, articles *)

Definition serve (f : feed) : pystr → result feed := λ _, Ok f.

Definition plain_entry (t s : pystr) : Entry.t :=
  Entry.mk (Some t) (Some (str "https://example.org/a")) None None (Some s).

(** A summary of one hundred ampersands. *)
Definition ampersands : Entry.t := plain_entry (str "AT&T") (repeat AMP 100).

(** A summary of 303 characters, all but the last inside one tag. *)
Definition long_tag : Entry.t :=
  plain_entry (str "tag") (LT :: repeat 97%N 300 ++ [GT; 120%N]).

(** An entry that carries a summary and a link but no title. *)
Definition untitled : Entry.t :=
  Entry.mk None (Some (str "https://example.org/a")) None None
           (Some (str "text")).

(** An entry with markup in title and summary and a structured time. *)
Definition marked_up : Entry.t :=
  Entry.mk (Some (str "<script>alert(1)</script>"))
           (Some (str "https://example.org/a"))
           (Some (Some [2024; 3; 5; 9; 7; 1; 1; 65; 0]%Z))
           (Some (str "Tue, 05 Mar 2024 09:07:01 GMT"))
           (Some (str "<b>x</b> > y & z")).

Definition ampersands_article : article :=
  {| title := str "AT&amp;T"; link := str "https://example.org/a";
     published := []; summary := escape (repeat AMP 100) |}.

Definition marked_up_article : article :=
  {| title := str "&lt;script&gt;alert(1)&lt;/script&gt;";
     link := str "https://example.org/a";
     published := strftime (mk_datetime 2024 3 5 9 7 1);
     summary := str "x &gt; y &amp; z" |}.

(** An entry published in the year 999, and one dated 30 February. *)
Definition year_999 : Entry.t :=
  Entry.mk (Some (str "old")) (Some (str "https://example.org/a"))
           (Some (Some [999; 1; 2; 3; 4; 5; 2; 2; 0]%Z))
           (Some (str "raw 999")) None.

Definition year_999_article : article :=
  {| title := str "old"; link := str "https://example.org/a";
     published := [57; 57; 57; 24180; 48; 49; 26376; 48; 50; 26085; 32;
                   48; 51; 58; 48; 52]%N;
     summary := NO_SUMMARY |}.

Definition february_30 : Entry.t :=
  Entry.mk (Some (str "odd")) (Some (str "https://example.org/a"))
           (Some (Some [2024; 2; 30; 3; 4; 5; 4; 61; 0]%Z))
           (Some (str "Fri, 30 Feb 2024")) None.

Definition february_30_article : article :=
  {| title := str "odd"; link := str "https://example.org/a";
     published := str "Fri, 30 Feb 2024"; summary := NO_SUMMARY |}.

(** A summary of 301 letters, for the cut. *)
Definition long_text : Entry.t := plain_entry (str "long") (repeat 97%N 301).

Definition long_text_article : article :=
  {| title := str "long"; link := str "https://example.org/a";
     published := []; summary := repeat 97%N 300 ++ [ELLIPSIS] |}.

(** The fixed fake feed: three entries. *)
Definition numbered (n : string) : Entry.t :=
  Entry.mk (Some (str n)) (Some (str "https://example.org/" ++ str n))
           None None None.

Definition numbered_article (n : string) : article :=
  {| title := str n; link := str "https://example.org/" ++ str n;
     published := []; summary := NO_SUMMARY |}.

Definition three_entries : feed :=
  mk_feed false [numbered "1"; numbered "2"; numbered "3"].

(** An entry whose link closes the attribute and opens a tag. *)
Definition hostile_link : pystr :=
  str "https://example.org/?a=1&b=" ++ [QUOT] ++ str "><script>".

Definition hostile : Entry.t :=
  Entry.mk (Some (str "news")) (Some hostile_link) None None None.

Definition hostile_article : article :=
  {| title := str "news"; link := hostile_link;
     published := []; summary := NO_SUMMARY |}.

(** The page after the first run of a new session, once the user has
    typed "Bitcoin" into the field. *)
Definition bitcoin_page : session :=
  type_text (str "Bitcoin") (fst (script_run no_click 15 (mk_session ∅ None))).

(** A network whose feed changes with time: one entry before second 100,
    three entries from then on. *)
Definition changing_net : Z → pystr → result feed := λ now _,
  if (now <? 100)%Z then Ok (mk_feed false [numbered "1"]) else Ok three_entries.

(** The cache after a first call at second 0. *)
Definition warm_cache : gmap (pystr * Z) cached :=
  {[ (str "AI", 5%Z) :=
       mk_cached 0 ([numbered_article "1"], feed_url (str "AI")) ]}.

(** The query [a&hl=en b]. *)
Definition injecting_query : pystr := str "a&hl=en b".

(** An entry with a title and without a link. *)
Definition unlinked : Entry.t :=
  Entry.mk (Some (str "t")) None None None None.

(** A summary of three spaces and a line break. *)
Definition blank : Entry.t :=
  Entry.mk (Some (str "t")) (Some (str "https://example.org/a")) None None
           (Some [32; 32; 12288; 10]%N).

Definition blank_article : article :=
  {| title := str "t"; link := str "https://example.org/a";
     published := []; summary := NO_SUMMARY |}.

(** An entry of plain text. *)
Definition plain_news : Entry.t :=
  plain_entry (str "OpenAI ships a model") (str "Plain text, no markup.").

Definition plain_news_article : article :=
  {| title := str "OpenAI ships a model"; link := str "https://example.org/a";
     published := []; summary := str "Plain text, no markup." |}.

(** An entry whose raw publish text is markup. *)
Definition raw_date : Entry.t :=
  Entry.mk (Some (str "t")) (Some (str "https://example.org/a")) None
           (Some (str "<img src=x>")) None.

Definition raw_date_article : article :=
  {| title := str "t"; link := str "https://example.org/a";
     published := str "<img src=x>"; summary := NO_SUMMARY |}.

(** The page a click on the quick tag LLM has drawn. *)
Definition llm_page : session :=
  mk_session ∅ (Some (mk_text_field (str "LLM") (str "LLM"))).

(** * Properties *)

(** ** The scan of [re.sub] has fuel enough *)

Lemma after_gt_length (s s' : pystr) :
  after_gt s = Some s' → length s' < length s.
Proof.
  induction s as [|c rest IH]; simpl; [done|].
  destruct (c =? GT)%N; intros H.
  - injection H as <-. lia.
  - specialize (IH H). lia.
Qed.

Lemma tag_match_length (s s' : pystr) :
  tag_match s = Some s' → length s' < length s.
Proof.
  destruct s as [|c [|d rest]]; simpl; try done.
  destruct ((c =? LT)%N && negb (d =? GT)%N); [|done].
  intros H%after_gt_length. lia.
Qed.

Lemma re_sub_tags_scan_fuel (fuel fuel' : nat) (s : pystr) :
  length s ≤ fuel → length s ≤ fuel' →
  re_sub_tags_scan fuel s = re_sub_tags_scan fuel' s.
Proof.
  revert fuel' s.
  induction fuel as [|fuel IH]; intros fuel' s Hf Hf'.
  - destruct s; [|simpl in Hf; lia]. by destruct fuel'.
  - destruct fuel' as [|fuel'].
    + destruct s; [done|simpl in Hf'; lia].
    + destruct s as [|c rest]; [done|].
      cbn [re_sub_tags_scan].
      destruct (tag_match (c :: rest)) as [s'|] eqn:Hm.
      * apply tag_match_length in Hm. simpl in *. apply IH; lia.
      * f_equal. simpl in *. apply IH; lia.
Qed.

(** The equations of the substitution, free of fuel. *)
Lemma re_sub_tags_nil : re_sub_tags [] = [].
Proof. done. Qed.

Lemma re_sub_tags_cons (c : char) (rest : pystr) :
  re_sub_tags (c :: rest) =
  match tag_match (c :: rest) with
  | Some s' => re_sub_tags s'
  | None => c :: re_sub_tags rest
  end.
Proof.
  unfold re_sub_tags at 1. cbn [length re_sub_tags_scan].
  destruct (tag_match (c :: rest)) as [s'|] eqn:Hm.
  - apply tag_match_length in Hm. simpl in Hm.
    apply re_sub_tags_scan_fuel; lia.
  - done.
Qed.

(** ** [html.escape], character by character *)

Lemma replace_flat_map (c : char) (by_ : pystr) (f : char → pystr) (s : pystr) :
  replace c by_ (flat_map f s) = flat_map (λ x, replace c by_ (f x)) s.
Proof.
  unfold replace. induction s as [|x s IH]; simpl; [done|].
  by rewrite flat_map_app, IH.
Qed.

Lemma replace_singleton (c : char) (by_ : pystr) (x : char) :
  replace c by_ [x] = if (x =? c)%N then by_ else [x].
Proof. unfold replace. simpl. by rewrite app_nil_r. Qed.

Lemma escape_flat_map (s : pystr) : escape s = flat_map escape_char s.
Proof.
  unfold escape.
  assert (replace AMP (str "&amp;") s
          = flat_map (λ x, replace AMP (str "&amp;") [x]) s) as ->.
  { unfold replace. apply flat_map_ext. intros x. simpl. by rewrite app_nil_r. }
  rewrite !replace_flat_map. apply flat_map_ext. intros x.
  unfold escape_char. rewrite replace_singleton.
  destruct (N.eqb_spec x AMP) as [->|_]; [done|].
  rewrite replace_singleton.
  destruct (N.eqb_spec x LT) as [->|_]; [done|].
  rewrite replace_singleton.
  destruct (N.eqb_spec x GT) as [->|_]; [done|].
  rewrite replace_singleton.
  destruct (N.eqb_spec x QUOT) as [->|_]; [done|].
  rewrite replace_singleton.
  by destruct (N.eqb_spec x APOS) as [->|_].
Qed.

Lemma escape_app (s t : pystr) : escape (s ++ t) = escape s ++ escape t.
Proof. rewrite !escape_flat_map. apply flat_map_app. Qed.

Lemma escape_char_length (c : char) :
  1 ≤ length (escape_char c) ≤ 6.
Proof.
  unfold escape_char.
  repeat (match goal with |- context [N.eqb ?a ?b] => destruct (N.eqb a b) end);
    simpl; lia.
Qed.

Lemma escape_length (s : pystr) :
  length s ≤ length (escape s) ≤ 6 * length s.
Proof.
  rewrite escape_flat_map.
  induction s as [|c s IH]; simpl; [lia|].
  rewrite length_app. pose proof (escape_char_length c). lia.
Qed.



Lemma escape_ellipsis : escape [ELLIPSIS] = [ELLIPSIS].
Proof. done. Qed.

(** ** The summary pipeline *)

Lemma entry_summary_length (e : Entry.t) : length (entry_summary e) ≤ 301.
Proof.
  unfold entry_summary.
  set (s := strip (re_sub_tags (getattr (Entry.summary e) []))).
  destruct (Nat.ltb_spec 300 (length s)).
  - rewrite length_app, length_take. cbn [length]. lia.
  - lia.
Qed.

(** Cut at 300 characters, the text ends with the mark, which escaping
    leaves alone. *)
Lemma entry_summary_cut (e : Entry.t) :
  300 < length (strip (re_sub_tags (getattr (Entry.summary e) []))) →
  entry_summary e =
    firstn 300 (strip (re_sub_tags (getattr (Entry.summary e) []))) ++ [ELLIPSIS].
Proof.
  intros H. unfold entry_summary.
  destruct (Nat.ltb_spec 300
    (length (strip (re_sub_tags (getattr (Entry.summary e) []))))); [done|lia].
Qed.

Lemma entry_summary_escaped_length (e : Entry.t) :
  length (escape (entry_summary e)) ≤ 1801.
Proof.
  unfold entry_summary.
  set (s := strip (re_sub_tags (getattr (Entry.summary e) []))).
  destruct (Nat.ltb_spec 300 (length s)).
  - rewrite escape_app, length_app, escape_ellipsis.
    pose proof (escape_length (firstn 300 s)) as [_ Hl].
    rewrite length_take in Hl. cbn [length]. lia.
  - pose proof (escape_length s). lia.
Qed.

Lemma safe_summary_of_length (e : Entry.t) :
  length (safe_summary_of (entry_summary e)) ≤ 1801.
Proof.
  pose proof (entry_summary_escaped_length e).
  unfold safe_summary_of. destruct (entry_summary e); [simpl; lia|done].
Qed.


(** ** The loop and the call *)

Lemma fetch_news_entry_ok (e : Entry.t) (a : article) :
  fetch_news_entry e = Ok a ↔
  ∃ t l, Entry.title e = Some t ∧ Entry.link e = Some l ∧
    a = {| title := escape t; link := l;
           published := entry_published e;
           summary := safe_summary_of (entry_summary e) |}.
Proof.
  unfold fetch_news_entry.
  destruct (Entry.title e) as [t|], (Entry.link e) as [l|]; simpl; split;
    try done; try (by intros (? & ? & ? & ? & ?)).
  - intros [= <-]. by exists t, l.
  - intros (t' & l' & [= <-] & [= <-] & ->). done.
Qed.

Lemma fetch_news_loop_ok (es : list Entry.t) (acc r : list article) :
  fetch_news_loop es acc = Ok r ↔
  ∃ new, r = acc ++ new ∧ Forall2 (λ e a, fetch_news_entry e = Ok a) es new.
Proof.
  revert acc. induction es as [|e es IH]; intros acc; simpl.
  - split.
    + intros [= <-]. exists []. by rewrite app_nil_r.
    + intros (new & -> & ->%Forall2_nil_inv_l). by rewrite app_nil_r.
  - destruct (fetch_news_entry e) as [a|x] eqn:He; simpl.
    + rewrite IH. split.
      * intros (new & -> & Hnew). exists (a :: new).
        rewrite <- app_assoc. split; [done|]. by constructor.
      * intros (new & -> & Hnew).
        apply Forall2_cons_inv_l in Hnew as (a' & new' & Ha & Hnew' & ->).
        assert (a' = a) as -> by congruence.
        exists new'. by rewrite <- app_assoc.
    + split; [done|].
      intros (new & _ & Hnew).
      apply Forall2_cons_inv_l in Hnew as (a' & new' & Ha & _). congruence.
Qed.

(** What a normal return of [fetch_news] tells. *)
Lemma fetch_news_ok parse (query : pystr) (num : Z)
    (articles : list article) (url : pystr) :
  fetch_news parse query num = Ok (articles, url) ↔
  ∃ encoded f, quote query = Ok encoded ∧ url = feed_url encoded ∧
    parse url = Ok f ∧
    Forall2 (λ e a, fetch_news_entry e = Ok a)
            (slice_to (entries f) num) articles.
Proof.
  unfold fetch_news.
  destruct (quote query) as [encoded|x]; simpl.
  2: { split; [done|]. by intros (? & ? & ? & _). }
  destruct (parse (feed_url encoded)) as [f|x] eqn:Hp; simpl.
  2: { split; [done|]. intros (? & ? & [= <-] & -> & ? & _). congruence. }
  destruct (fetch_news_loop (slice_to (entries f) num) []) as [r|x] eqn:Hl;
    simpl.
  - apply fetch_news_loop_ok in Hl as (new & -> & Hnew). simpl. split.
    + intros [= <- <-]. by exists encoded, f.
    + intros (? & f' & [= <-] & -> & Hf & H2).
      rewrite Hp in Hf. injection Hf as <-.
      f_equal. f_equal.
      clear -Hnew H2. revert articles H2.
      induction Hnew; intros articles H2.
      * by apply Forall2_nil_inv_l in H2.
      * apply Forall2_cons_inv_l in H2 as (a' & new' & Ha & H2 & ->).
        f_equal; [congruence|auto].
  - split; [done|].
    intros (? & f' & [= <-] & -> & Hf & H2).
    rewrite Hp in Hf. injection Hf as <-.
    assert (fetch_news_loop (slice_to (entries f) num) [] = Ok articles)
      as Hok by (apply fetch_news_loop_ok; by exists articles).
    congruence.
Qed.

(** Each returned article comes from the entry at its own position. *)
Lemma fetch_news_lookup parse (query : pystr) (num : Z)
    (articles : list article) (url : pystr) (f : feed) (i : nat) (a : article) :
  fetch_news parse query num = Ok (articles, url) →
  parse url = Ok f →
  articles !! i = Some a →
  ∃ e, slice_to (entries f) num !! i = Some e ∧ fetch_news_entry e = Ok a.
Proof.
  intros (enc & f' & _ & _ & Hf & H2)%fetch_news_ok Hp Ha.
  rewrite Hp in Hf. injection Hf as <-.
  destruct (Forall2_lookup_r _ _ _ _ _ H2 Ha) as (e & He & Hea). eauto.
Qed.

Lemma fetch_news_elem parse (query : pystr) (num : Z)
    (articles : list article) (url : pystr) (a : article) :
  fetch_news parse query num = Ok (articles, url) →
  a ∈ articles →
  ∃ e, fetch_news_entry e = Ok a.
Proof.
  intros (enc & f & _ & _ & _ & H2)%fetch_news_ok
         (i & Ha)%list_elem_of_lookup.
  destruct (Forall2_lookup_r _ _ _ _ _ H2 Ha) as (e & _ & Hea). eauto.
Qed.

Lemma utf8_encode_char_scalar (c : char) :
  scalar c = true → ∃ bs, utf8_encode_char c = Ok bs.
Proof.
  unfold scalar, utf8_encode_char. intros H.
  destruct (N.ltb_spec c 128); [eauto|].
  destruct (N.ltb_spec c 2048); [eauto|].
  destruct (N.ltb_spec c 65536).
  - destruct (N.leb_spec 55296 c), (N.leb_spec c 57343); simpl; eauto.
    exfalso.
    destruct (N.ltb_spec c 55296); [lia|].
    destruct (N.ltb_spec 57343 c); [lia|]. done.
  - destruct (N.ltb_spec c 1114112); [eauto|].
    exfalso.
    destruct (N.ltb_spec c 55296); [lia|].
    destruct (N.ltb_spec 57343 c); simpl in H; done.
Qed.

Lemma quote_scalar (s : pystr) :
  Forall (λ c, scalar c = true) s → ∃ encoded, quote s = Ok encoded.
Proof.
  intros H. unfold quote.
  assert (∃ bs, utf8_encode s = Ok bs) as [bs ->]; [|simpl; eauto].
  induction H as [|c s Hc _ [bs IH]]; simpl; [eauto|].
  destruct (utf8_encode_char_scalar c Hc) as [b ->]. rewrite IH. simpl. eauto.
Qed.

(** ** C1: the length of the summary field *)

(** C1, as stated, fails: a summary of one hundred ampersands is returned
    as five hundred characters, since the text is escaped after it was cut. *)
Lemma summary_exceeds_301 :
  ∃ articles url a,
    fetch_news (serve (mk_feed false [ampersands])) (str "AI") 20
      = Ok (articles, url) ∧
    a ∈ articles ∧ length (summary a) = 500 ∧ ¬ length (summary a) ≤ 301.
Proof.
  eexists _, _, _. split; [vm_compute; reflexivity|].
  split; [apply list_elem_of_here|].
  split; [vm_compute; reflexivity|]. vm_compute. lia.
Qed.

(** C1, amended: for every call of [fetch_news] and every article it
    returns, the summary field is the placeholder or the HTML escape of a
    text of at most 301 characters (at most 300 characters and then the
    ellipsis mark); the field itself has at most 1801 characters. *)
Theorem fetch_news_summary_bound parse (query : pystr) (num : Z)
    (articles : list article) (url : pystr) (a : article) :
  fetch_news parse query num = Ok (articles, url) →
  a ∈ articles →
  ∃ text : pystr,
    length text ≤ 301 ∧
    (300 < length text → ∃ cut, length cut = 300 ∧ text = cut ++ [ELLIPSIS]) ∧
    summary a = match text with [] => NO_SUMMARY | _ => escape text end ∧
    length (summary a) ≤ 1801.
Proof.
  intros Hf Ha.
  destruct (fetch_news_elem _ _ _ _ _ _ Hf Ha) as (e & He).
  apply fetch_news_entry_ok in He as (t & l & _ & _ & ->). simpl.
  exists (entry_summary e). split; [apply entry_summary_length|].
  split; [|split; [done|apply safe_summary_of_length]].
  unfold entry_summary.
  set (s := strip (re_sub_tags (getattr (Entry.summary e) []))).
  destruct (Nat.ltb_spec 300 (length s)); [|lia].
  intros _. exists (firstn 300 s). split; [|done].
  rewrite length_take. lia.
Qed.

Lemma fetch_news_summary_bound_witness :
  ∃ text : pystr,
    length text ≤ 301 ∧
    (300 < length text → ∃ cut, length cut = 300 ∧ text = cut ++ [ELLIPSIS]) ∧
    summary ampersands_article
      = match text with [] => NO_SUMMARY | _ => escape text end ∧
    length (summary ampersands_article) ≤ 1801.
Proof.
  apply (fetch_news_summary_bound
           (serve (mk_feed false [ampersands])) (str "AI") 20
           [ampersands_article] (feed_url (str "AI")) ampersands_article).
  - vm_compute. reflexivity.
  - apply list_elem_of_here.
Defined.

(** ** C2: no markup character survives in title and summary *)



(** ** C3: what leaves the Fetcher when something fails *)

(** [fetch_news] has no handler of its own: what the parser raises, it
    raises. *)
Lemma fetch_news_parse_raises parse (query encoded : pystr) (num : Z) (x : exn) :
  quote query = Ok encoded →
  parse (feed_url encoded) = Raise x →
  fetch_news parse query num = Raise x.
Proof. intros Hq Hp. unfold fetch_news. rewrite Hq. simpl. by rewrite Hp. Qed.

(** C3, as stated, fails: on a feed whose first entry has no title the
    [AttributeError] of [entry.title] leaves [fetch_news]. *)
Lemma missing_title_raises :
  fetch_news (serve (mk_feed false [untitled])) (str "AI") 20
    = Raise (AttributeError "title") ∧
  ¬ ∃ r, fetch_news (serve (mk_feed false [untitled])) (str "AI") 20 = Ok r.
Proof.
  split; [vm_compute; reflexivity|].
  intros [r Hr]. vm_compute in Hr. discriminate.
Qed.

(** C3, amended: when the parser returns a feed without entries (what it
    returns for a retrieval or a parse it could not complete),
    [fetch_news] returns the empty article list together with the request
    URL; and it returns normally, one article per entry taken, whenever
    the query can be encoded, the parser returns, and each entry taken
    carries a title and a link. *)
Theorem fetch_news_returns parse (query encoded : pystr) (num : Z) (f : feed) :
  quote query = Ok encoded →
  parse (feed_url encoded) = Ok f →
  Forall (λ e, is_Some (Entry.title e) ∧ is_Some (Entry.link e))
         (slice_to (entries f) num) →
  ∃ articles,
    fetch_news parse query num = Ok (articles, feed_url encoded) ∧
    length articles = length (slice_to (entries f) num) ∧
    (entries f = [] → articles = []).
Proof.
  intros Hq Hp Hall.
  assert (∃ articles, Forall2 (λ e a, fetch_news_entry e = Ok a)
                              (slice_to (entries f) num) articles)
    as [articles H2].
  { induction Hall as [|e es [[t Ht] [l Hl]] _ [articles IH]].
    - by exists [].
    - eexists (_ :: articles). constructor; [|done].
      apply fetch_news_entry_ok. by exists t, l. }
  exists articles. split; [|split].
  - apply fetch_news_ok. by exists encoded, f.
  - symmetry. by eapply Forall2_length.
  - intros Hnil. rewrite Hnil in H2. unfold slice_to in H2.
    destruct (num <? 0)%Z; rewrite take_nil in H2;
      by apply Forall2_nil_inv_l in H2.
Qed.

Lemma fetch_news_returns_witness :
  ∃ articles,
    fetch_news (serve (mk_feed true [])) (str "AI") 20
      = Ok (articles, feed_url (str "AI")) ∧
    length articles = length (slice_to (entries (mk_feed true [])) 20) ∧
    (entries (mk_feed true []) = [] → articles = []).
Proof.
  apply (fetch_news_returns (serve (mk_feed true [])) (str "AI") (str "AI") 20
                            (mk_feed true [])).
  - reflexivity.
  - reflexivity.
  - simpl. constructor.
Defined.

(** ** C4: the ellipsis mark *)

(** C4, as stated, fails: a summary of 303 characters of which 302 are one
    tag comes back as [x], without the mark. *)
Lemma long_source_summary_without_ellipsis :
  ∃ articles url a,
    fetch_news (serve (mk_feed false [long_tag])) (str "AI") 20
      = Ok (articles, url) ∧
    a ∈ articles ∧
    Entry.summary long_tag = Some (LT :: repeat 97%N 300 ++ [GT; 120%N]) ∧
    length (LT :: repeat 97%N 300 ++ [GT; 120%N]) = 303 ∧
    summary a = str "x" ∧
    ¬ ∃ text, summary a = text ++ [ELLIPSIS].
Proof.
  eexists _, _, _. split; [vm_compute; reflexivity|].
  split; [apply list_elem_of_here|].
  split; [reflexivity|]. split; [reflexivity|]. split; [reflexivity|].
  intros [text Ht]. simpl in Ht.
  destruct text as [|c [|d text]]; simpl in Ht; discriminate.
Qed.

(** C4, amended: for every fetch result, an article whose entry's summary
    is longer than 300 characters once its tags are removed and it is
    trimmed has a summary field that ends with the ellipsis mark: the
    escaped first 300 characters, then the mark. *)
Theorem fetch_news_ellipsis parse (query : pystr) (num : Z)
    (articles : list article) (url : pystr) (f : feed)
    (i : nat) (a : article) (e : Entry.t) :
  fetch_news parse query num = Ok (articles, url) →
  parse url = Ok f →
  articles !! i = Some a →
  slice_to (entries f) num !! i = Some e →
  300 < length (strip (re_sub_tags (getattr (Entry.summary e) []))) →
  summary a =
    escape (firstn 300 (strip (re_sub_tags (getattr (Entry.summary e) []))))
    ++ [ELLIPSIS].
Proof.
  intros Hf Hp Ha He Hlong.
  destruct (fetch_news_lookup _ _ _ _ _ _ _ _ Hf Hp Ha) as (e' & He' & Hea).
  rewrite He in He'. injection He' as <-.
  apply fetch_news_entry_ok in Hea as (t & l & _ & _ & ->). simpl.
  rewrite (entry_summary_cut e Hlong).
  unfold safe_summary_of.
  destruct (firstn 300 _ ++ [ELLIPSIS]) as [|c s] eqn:Hs.
  - by apply app_nil in Hs as [_ ?].
  - rewrite <- Hs. by rewrite escape_app, escape_ellipsis.
Qed.

Lemma fetch_news_ellipsis_witness :
  summary long_text_article =
    escape (firstn 300
      (strip (re_sub_tags (getattr (Entry.summary long_text) []))))
    ++ [ELLIPSIS].
Proof.
  apply (fetch_news_ellipsis
           (serve (mk_feed false [long_text])) (str "AI") 20
           [long_text_article] (feed_url (str "AI")) (mk_feed false [long_text])
           0 long_text_article long_text).
  - vm_compute. reflexivity.
  - reflexivity.
  - reflexivity.
  - reflexivity.
  - vm_compute. lia.
Defined.

(** ** C5: the published field *)

Lemma entry_published_structured (e : Entry.t) (tm : list Z) :
  Entry.published_parsed e = Some (Some tm) → tm ≠ [] →
  entry_published e =
    match datetime_new (firstn 6 tm) with
    | Ok dt => strftime dt
    | Raise _ => getattr (Entry.published e) []
    end.
Proof.
  intros Hpp Htm. unfold entry_published. rewrite Hpp.
  destruct tm as [|x tm]; [done|].
  change (slice_to (x :: tm) 6) with (firstn 6 (x :: tm)).
  by destruct (datetime_new (firstn 6 (x :: tm))).
Qed.

Lemma entry_published_raw (e : Entry.t) :
  Entry.published_parsed e = None ∨ Entry.published_parsed e = Some None
    ∨ Entry.published_parsed e = Some (Some []) →
  entry_published e = getattr (Entry.published e) [].
Proof.
  unfold entry_published. intros [->| [->| ->]]; by destruct (Entry.published e).
Qed.

Lemma is_leap_spec (y : Z) : is_leap y = true ↔ leap_year y.
Proof.
  unfold is_leap, leap_year.
  rewrite andb_true_iff, orb_true_iff, negb_true_iff, !Z.eqb_eq, Z.eqb_neq.
  done.
Qed.

Lemma days_in_month_spec (y m d : Z) :
  (1 ≤ m ≤ 12)%Z →
  (d ≤ days_in_month y m)%Z ↔
  (d ≤ 31 ∧ (m = 4 ∨ m = 6 ∨ m = 9 ∨ m = 11 → d ≤ 30) ∧
   (m = 2 → d ≤ 29) ∧ (m = 2 → d = 29 → leap_year y))%Z.
Proof.
  intros Hm. unfold days_in_month. rewrite <- is_leap_spec.
  destruct (Z.eqb_spec m 2) as [->|H2].
  - destruct (is_leap y); split; intros; intuition lia.
  - destruct (Z.eqb_spec m 4), (Z.eqb_spec m 6), (Z.eqb_spec m 9),
      (Z.eqb_spec m 11); simpl; split; intros; intuition lia.
Qed.

(** The constructor accepts exactly the valid tuples. *)
Lemma check_datetime_spec (y m d h mi s : Z) :
  check_datetime (mk_datetime y m d h mi s) = Ok (mk_datetime y m d h mi s) ↔
  valid_date_time y m d h mi s.
Proof.
  unfold check_datetime, valid_date_time. cbn [year month day hour minute second].
  split.
  - destruct (_ && _) eqn:H; [|done]. intros _.
    rewrite !andb_true_iff, !Z.leb_le in H.
    destruct H as [[[[[[[[[[[? ?] ?] ?] ?] Hday] ?] ?] ?] ?] ?] ?].
    apply days_in_month_spec in Hday as (? & ? & ? & ?); [|lia].
    do 3 (split; [lia|]). do 3 (split; [assumption|]). lia.
  - intros (Hy & Hm & Hd & H30 & H29 & Hleap & Hh & Hmi & Hs).
    assert (d ≤ days_in_month y m)%Z as Hday.
    { apply days_in_month_spec; [lia|].
      split; [lia|]. do 2 (split; [assumption|]). assumption. }
    match goal with |- (if ?b then _ else _) = _ => assert (b = true) as -> end;
      [|done].
    rewrite !andb_true_iff, !Z.leb_le. repeat split; lia.
Qed.

Lemma check_datetime_raises (dt : datetime) :
  check_datetime dt = Ok dt ∨ check_datetime dt = Raise ValueError.
Proof. unfold check_datetime. destruct (_ && _); auto. Qed.

(** The constructor call on the first six numbers of a time tuple: the
    numbers in their order, hour, minute and second being 0 when the tuple
    stops before them; fewer than three numbers are a [TypeError]. *)
Lemma datetime_new_firstn (tm : list Z) :
  3 ≤ length tm →
  datetime_new (firstn 6 tm)
  = check_datetime (mk_datetime (nth 0 tm 0%Z) (nth 1 tm 0%Z) (nth 2 tm 0%Z)
                                (nth 3 tm 0%Z) (nth 4 tm 0%Z) (nth 5 tm 0%Z)).
Proof.
  intros Hlen.
  destruct tm as [|y [|m [|d [|h [|mi [|s rest]]]]]]; simpl in Hlen;
    try lia; reflexivity.
Qed.

Lemma datetime_new_short (tm : list Z) :
  length tm < 3 → datetime_new (firstn 6 tm) = Raise TypeError.
Proof.
  intros Hlen. destruct tm as [|y [|m [|d tm]]]; simpl in Hlen; try lia; done.
Qed.

(** C5: for every entry processed by [fetch_news], the article's published
    field is: the structured publish time formatted by
    ['%Y年%m月%d日 %H:%M'] when the entry provides one and it can be
    formatted, that is, when its first six numbers are a valid date and
    time (the year in decimal, then month, day, hour and minute with two
    digits each); the raw published text (empty when absent) when the
    formatting fails; and, when no structured time is provided, the raw
    published text if it exists and the empty string otherwise. *)
Theorem fetch_news_published parse (query : pystr) (num : Z)
    (articles : list article) (url : pystr) (f : feed)
    (i : nat) (a : article) (e : Entry.t) :
  fetch_news parse query num = Ok (articles, url) →
  parse url = Ok f →
  articles !! i = Some a →
  slice_to (entries f) num !! i = Some e →
  (∀ tm, Entry.published_parsed e = Some (Some tm) → 3 ≤ length tm →
     let y := nth 0 tm 0%Z in let m := nth 1 tm 0%Z in
     let d := nth 2 tm 0%Z in let h := nth 3 tm 0%Z in
     let mi := nth 4 tm 0%Z in let s := nth 5 tm 0%Z in
     (valid_date_time y m d h mi s →
        published a = decimal y ++ [24180%N] ++ pad2 m ++ [26376%N]
                      ++ pad2 d ++ [26085%N; 32%N]
                      ++ pad2 h ++ [58%N] ++ pad2 mi) ∧
     (¬ valid_date_time y m d h mi s →
        published a = match Entry.published e with
                      | Some raw => raw
                      | None => []
                      end)) ∧
  (∀ tm, Entry.published_parsed e = Some (Some tm) → tm ≠ [] →
     length tm < 3 →
     published a = match Entry.published e with Some raw => raw | None => [] end) ∧
  (∀ tm dt, Entry.published_parsed e = Some (Some tm) → tm ≠ [] →
     datetime_new (firstn 6 tm) = Ok dt →
     published a = strftime dt) ∧
  (∀ tm x, Entry.published_parsed e = Some (Some tm) → tm ≠ [] →
     datetime_new (firstn 6 tm) = Raise x →
     published a = match Entry.published e with Some raw => raw | None => [] end) ∧
  (Entry.published_parsed e = None ∨ Entry.published_parsed e = Some None
     ∨ Entry.published_parsed e = Some (Some []) →
   ∀ raw, Entry.published e = Some raw → published a = raw) ∧
  (Entry.published_parsed e = None ∨ Entry.published_parsed e = Some None
     ∨ Entry.published_parsed e = Some (Some []) →
   Entry.published e = None → published a = []).
Proof.
  intros Hf Hp Ha He.
  destruct (fetch_news_lookup _ _ _ _ _ _ _ _ Hf Hp Ha) as (e' & He' & Hea).
  rewrite He in He'. injection He' as <-.
  apply fetch_news_entry_ok in Hea as (t & l & _ & _ & ->). simpl.
  split; [|split; [|split; [|split; [|split]]]].
  - intros tm Hpp Hlen.
    rewrite (entry_published_structured e _ Hpp)
      by (intros ->; simpl in Hlen; lia).
    rewrite datetime_new_firstn by done. split.
    + intros Hv%check_datetime_spec. by rewrite Hv.
    + intros Hv.
      destruct (check_datetime_raises
                  (mk_datetime (nth 0 tm 0%Z) (nth 1 tm 0%Z) (nth 2 tm 0%Z)
                               (nth 3 tm 0%Z) (nth 4 tm 0%Z) (nth 5 tm 0%Z)))
        as [Hc|Hc].
      * by apply check_datetime_spec in Hc.
      * rewrite Hc. by destruct (Entry.published e).
  - intros tm Hpp Htm Hlen.
    rewrite (entry_published_structured e tm) by done.
    rewrite datetime_new_short by done. by destruct (Entry.published e).
  - intros tm dt Hpp Htm Hdt.
    rewrite (entry_published_structured e tm) by done. by rewrite Hdt.
  - intros tm x Hpp Htm Hdt.
    rewrite (entry_published_structured e tm) by done. by rewrite Hdt.
  - intros Hno raw Hraw. rewrite entry_published_raw by done. by rewrite Hraw.
  - intros Hno Hraw. rewrite entry_published_raw by done. by rewrite Hraw.
Qed.

Lemma fetch_news_published_witness :
  published marked_up_article
    = [50; 48; 50; 52; 24180; 48; 51; 26376; 48; 53; 26085; 32;
       48; 57; 58; 48; 55]%N ∧
  published year_999_article
    = [57; 57; 57; 24180; 48; 49; 26376; 48; 50; 26085; 32;
       48; 51; 58; 48; 52]%N ∧
  published february_30_article = str "Fri, 30 Feb 2024".
Proof.
  split; [|split].
  - destruct (fetch_news_published
                (serve (mk_feed false [marked_up])) (str "AI") 20
                [marked_up_article] (feed_url (str "AI"))
                (mk_feed false [marked_up]) 0 marked_up_article marked_up)
      as (Hfmt & _); [vm_compute; reflexivity|reflexivity..|].
    destruct (Hfmt [2024; 3; 5; 9; 7; 1; 1; 65; 0]%Z) as [Hok _];
      [reflexivity|simpl; lia|].
    rewrite Hok; [reflexivity|]. unfold valid_date_time. simpl. lia.
  - destruct (fetch_news_published
                (serve (mk_feed false [year_999])) (str "AI") 20
                [year_999_article] (feed_url (str "AI"))
                (mk_feed false [year_999]) 0 year_999_article year_999)
      as (Hfmt & _); [vm_compute; reflexivity|reflexivity..|].
    destruct (Hfmt [999; 1; 2; 3; 4; 5; 2; 2; 0]%Z) as [Hok _];
      [reflexivity|simpl; lia|].
    rewrite Hok; [reflexivity|]. unfold valid_date_time. simpl. lia.
  - destruct (fetch_news_published
                (serve (mk_feed false [february_30])) (str "AI") 20
                [february_30_article] (feed_url (str "AI"))
                (mk_feed false [february_30]) 0 february_30_article february_30)
      as (Hfmt & _); [vm_compute; reflexivity|reflexivity..|].
    destruct (Hfmt [2024; 2; 30; 3; 4; 5; 4; 61; 0]%Z) as [_ Hbad];
      [reflexivity|simpl; lia|].
    apply Hbad. unfold valid_date_time. simpl. lia.
Defined.

(** ** C6: at most [num] entries, in feed order *)

Lemma slice_to_nonneg {A} (l : list A) (n : Z) :
  (0 ≤ n)%Z → slice_to l n = firstn (Z.to_nat n) l.
Proof. intros H. unfold slice_to. by destruct (Z.ltb_spec n 0); [lia|]. Qed.

(** C6: with a limit [num] that is not negative, [fetch_news] returns one
    article for each of the first [num] entries of the feed, the article
    at each position made from the entry at the same position of the
    feed; when [num] is not below the number of entries, all are
    returned.  (Three entries and limit 2: two articles, from the first
    and the second entry.) *)
Theorem fetch_news_takes_limit parse (query : pystr) (num : Z)
    (articles : list article) (url : pystr) (f : feed) :
  (0 ≤ num)%Z →
  fetch_news parse query num = Ok (articles, url) →
  parse url = Ok f →
  length articles = Nat.min (Z.to_nat num) (length (entries f)) ∧
  (Z.of_nat (length articles) ≤ num)%Z ∧
  (∀ i a, articles !! i = Some a →
     ∃ e, entries f !! i = Some e ∧ fetch_news_entry e = Ok a) ∧
  ((Z.of_nat (length (entries f)) ≤ num)%Z →
     length articles = length (entries f)).
Proof.
  intros Hnum Hf Hp.
  assert (length articles = Nat.min (Z.to_nat num) (length (entries f))) as Hlen.
  { apply fetch_news_ok in Hf as (enc & f' & _ & _ & Hf' & H2).
    rewrite Hp in Hf'. injection Hf' as <-.
    apply Forall2_length in H2. rewrite <- H2.
    rewrite slice_to_nonneg by done. apply length_take. }
  split; [done|]. split; [lia|]. split; [|lia].
  intros i a Ha.
  destruct (fetch_news_lookup _ _ _ _ _ _ _ _ Hf Hp Ha) as (e & He & Hea).
  rewrite slice_to_nonneg in He by done.
  apply lookup_take_Some in He as [He _]. eauto.
Qed.

Lemma fetch_news_takes_limit_witness :
  fetch_news (serve three_entries) (str "AI") 2
    = Ok ([numbered_article "1"; numbered_article "2"], feed_url (str "AI")) ∧
  length [numbered_article "1"; numbered_article "2"]
    = Nat.min (Z.to_nat 2) (length (entries three_entries)) ∧
  (Z.of_nat (length [numbered_article "1"; numbered_article "2"]) ≤ 2)%Z ∧
  (∀ i a, [numbered_article "1"; numbered_article "2"] !! i = Some a →
     ∃ e, entries three_entries !! i = Some e ∧ fetch_news_entry e = Ok a) ∧
  ((Z.of_nat (length (entries three_entries)) ≤ 2)%Z →
     length [numbered_article "1"; numbered_article "2"]
       = length (entries three_entries)).
Proof.
  split; [vm_compute; reflexivity|].
  apply (fetch_news_takes_limit (serve three_entries) (str "AI") 2
           [numbered_article "1"; numbered_article "2"] (feed_url (str "AI"))
           three_entries).
  - lia.
  - vm_compute. reflexivity.
  - reflexivity.
Defined.

(** ** C9: alternating columns *)

Lemma mod_2_even (n : nat) : (n mod 2 =? 0) = Nat.even n.
Proof.
  rewrite <- Nat.negb_odd, <- Nat.bit0_odd, Nat.bit0_eqb.
  pose proof (Nat.mod_upper_bound n 2).
  destruct (Nat.eqb_spec (n mod 2) 0), (Nat.eqb_spec (n mod 2) 1); simpl; lia.
Qed.

Lemma div2_succ_even (n : nat) :
  Nat.even n = true → Nat.div2 (S n) = Nat.div2 n.
Proof.
  intros [m ->]%Nat.even_spec.
  by rewrite Nat.div2_succ_double, Nat.div2_double.
Qed.

Lemma div2_succ_odd (n : nat) :
  Nat.even n = false → Nat.div2 (S n) = S (Nat.div2 n).
Proof.
  intros H. assert (Nat.odd n = true) as [m ->]%Nat.odd_spec
    by (by rewrite <- Nat.negb_even, H).
  replace (S (2 * m + 1)) with (2 * S m) by lia.
  replace (2 * m + 1) with (S (2 * m)) by lia.
  by rewrite Nat.div2_succ_double, Nat.div2_double.
Qed.

(** The invariant of the loop: after [idx] cards the left column holds
    [(idx + 1) / 2] of them and the right one [idx / 2]; the columns only
    grow at their end, and the card of index [idx + j] lands at position
    [(idx + j) / 2] of its column. *)
Lemma place_cards_spec (articles : list article) (idx : nat)
    (left right : list pystr) :
  length left = Nat.div2 (S idx) → length right = Nat.div2 idx →
  ∃ more_left more_right,
    place_cards idx articles left right
      = (left ++ more_left, right ++ more_right) ∧
    length (left ++ more_left) = Nat.div2 (S (idx + length articles)) ∧
    length (right ++ more_right) = Nat.div2 (idx + length articles) ∧
    ∀ j a, articles !! j = Some a →
      (if Nat.even (idx + j) then left ++ more_left else right ++ more_right)
        !! Nat.div2 (idx + j) = Some (card a).
Proof.
  revert idx left right.
  induction articles as [|a0 rest IH]; intros idx left right Hl Hr.
  - exists [], []. rewrite !app_nil_r, Nat.add_0_r. done.
  - cbn [place_cards]. rewrite mod_2_even.
    destruct (Nat.even idx) eqn:Hev.
    + destruct (IH (S idx) (left ++ [card a0]) right) as (ml & mr & -> & Hll & Hrl & Hat).
      * rewrite length_app, Hl. simpl length.
        rewrite (div2_succ_odd (S idx)); [lia|].
        by rewrite Nat.even_succ, <- Nat.negb_even, Hev.
      * by rewrite div2_succ_even.
      * exists ([card a0] ++ ml), mr. rewrite app_assoc.
        split; [done|].
        cbn [length]. rewrite <- !Nat.add_succ_comm.
        split; [done|]. split; [done|].
        intros [|j] a Ha.
        -- injection Ha as <-. rewrite Nat.add_0_r, Hev.
           rewrite <- app_assoc. rewrite div2_succ_even in Hl by done.
           rewrite <- Hl. by apply list_lookup_middle.
        -- rewrite <- Nat.add_succ_comm. by apply Hat.
    + destruct (IH (S idx) left (right ++ [card a0])) as (ml & mr & -> & Hll & Hrl & Hat).
      * rewrite Hl. rewrite (div2_succ_even (S idx)); [done|].
        by rewrite Nat.even_succ, <- Nat.negb_even, Hev.
      * rewrite length_app, Hr. simpl length.
        rewrite div2_succ_odd by done. lia.
      * exists ml, ([card a0] ++ mr). rewrite app_assoc.
        split; [done|].
        cbn [length]. rewrite <- !Nat.add_succ_comm.
        split; [done|]. split; [done|].
        intros [|j] a Ha.
        -- injection Ha as <-. rewrite Nat.add_0_r, Hev.
           rewrite <- app_assoc. rewrite <- Hr. by apply list_lookup_middle.
        -- rewrite <- Nat.add_succ_comm. by apply Hat.
Qed.

(** C9: for a rendered result list of length N and every index i below N,
    the card of the article at index i is drawn in the left column when i
    is even and in the right column when i is odd (at position i / 2 of
    that column, the left column holding (N + 1) / 2 cards and the right
    one N / 2). *)
Theorem card_alternates_columns (articles : list article) (i : nat) (a : article) :
  articles !! i = Some a →
  ∃ left right,
    render_articles articles = Cards left right ∧
    length left = (length articles + 1) / 2 ∧
    length right = length articles / 2 ∧
    (Nat.even i = true → left !! (i / 2) = Some (card a)) ∧
    (Nat.odd i = true → right !! (i / 2) = Some (card a)).
Proof.
  intros Ha.
  destruct (place_cards_spec articles 0 [] []) as (l & r & Hp & Hll & Hrl & Hat);
    [done..|].
  cbn [app Nat.add] in Hp, Hll, Hrl, Hat.
  exists l, r. split; [|split; [|split; [|split]]].
  - unfold render_articles. destruct articles; [done|]. by rewrite Hp.
  - rewrite Hll, Nat.add_1_r. apply Nat.div2_div.
  - rewrite Hrl. apply Nat.div2_div.
  - intros Hev. specialize (Hat i a Ha). rewrite Hev in Hat.
    by rewrite <- Nat.div2_div.
  - intros Hod. specialize (Hat i a Ha).
    rewrite <- Nat.negb_odd, Hod in Hat. by rewrite <- Nat.div2_div.
Qed.

Lemma card_alternates_columns_witness :
  render_articles
    [numbered_article "0"; numbered_article "1"; numbered_article "2"]
    = Cards [card (numbered_article "0"); card (numbered_article "2")]
            [card (numbered_article "1")] ∧
  ∃ left right,
    render_articles
      [numbered_article "0"; numbered_article "1"; numbered_article "2"]
      = Cards left right ∧
    length left = (3 + 1) / 2 ∧
    length right = 3 / 2 ∧
    (Nat.even 1 = true → left !! (1 / 2) = Some (card (numbered_article "1"))) ∧
    (Nat.odd 1 = true → right !! (1 / 2) = Some (card (numbered_article "1"))).
Proof.
  split; [reflexivity|].
  apply (card_alternates_columns
           [numbered_article "0"; numbered_article "1"; numbered_article "2"]
           1 (numbered_article "1")).
  reflexivity.
Defined.

(** ** C10: the link is passed through *)

(** C10: for every article returned by [fetch_news], the link field is the
    link string of the feed entry at the same position, unchanged, and the
    card built from the article carries it unchanged between the quotes of
    its [href] attribute. *)
Theorem fetch_news_link_verbatim parse (query : pystr) (num : Z)
    (articles : list article) (url : pystr) (f : feed)
    (i : nat) (a : article) :
  fetch_news parse query num = Ok (articles, url) →
  parse url = Ok f →
  articles !! i = Some a →
  (∃ e, slice_to (entries f) num !! i = Some e ∧ Entry.link e = Some (link a)) ∧
  ∃ before after,
    card a = before ++ str "<a href=" ++ [QUOT] ++ link a ++ [QUOT] ++ after ∧
    after = str " target=" ++ [QUOT] ++ str "_blank" ++ [QUOT] ++ str ">"
            ++ [128214; 32; 20803; 35352; 20107; 12434; 35501; 12416]%N
            ++ str "</a>" ++ str "  </div>" ++ str "</div>".
Proof.
  intros Hf Hp Ha.
  destruct (fetch_news_lookup _ _ _ _ _ _ _ _ Hf Hp Ha) as (e & He & Hea).
  apply fetch_news_entry_ok in Hea as (t & l & _ & Hl & ->).
  split; [by exists e|].
  exists (div_open "news-card"
          ++ str "  " ++ div_open "card-title" ++ escape t ++ str "</div>"
          ++ str "  " ++ div_open "card-date"
             ++ [128467; 65039; 32]%N ++ entry_published e ++ str "</div>"
          ++ str "  " ++ div_open "card-summary"
             ++ safe_summary_of (entry_summary e) ++ str "</div>"
          ++ str "  " ++ div_open "card-link" ++ str "    ").
  eexists. split; [|reflexivity].
  unfold card. cbn [title link published summary].
  rewrite <- !app_assoc. reflexivity.
Qed.

Lemma fetch_news_link_verbatim_witness :
  (∃ e, slice_to (entries (mk_feed false [hostile])) 20 !! 0 = Some e ∧
        Entry.link e = Some hostile_link) ∧
  ∃ before after,
    card hostile_article
      = before ++ str "<a href=" ++ [QUOT] ++ hostile_link ++ [QUOT] ++ after ∧
    after = str " target=" ++ [QUOT] ++ str "_blank" ++ [QUOT] ++ str ">"
            ++ [128214; 32; 20803; 35352; 20107; 12434; 35501; 12416]%N
            ++ str "</a>" ++ str "  </div>" ++ str "</div>".
Proof.
  apply (fetch_news_link_verbatim
           (serve (mk_feed false [hostile])) (str "AI") 20
           [hostile_article] (feed_url (str "AI")) (mk_feed false [hostile])
           0 hostile_article).
  - vm_compute. reflexivity.
  - reflexivity.
  - reflexivity.
Defined.

(** ** C8: the quick tag is a one-shot override *)

Lemma tag_buttons_no_click (tags : list pystr) (ss : gmap string pystr) :
  tag_buttons no_click tags ss = (ss, false).
Proof. by induction tags. Qed.

(** A run that reaches the fetch leaves no override behind: when the user
    sees a rendered page, none is pending. *)
Lemma script_run_fetch_consumes clicked (n : Z) (s s' : session)
    (query : pystr) (num : Z) :
  script_run clicked n s = (s', Fetch query num) →
  session_state s' !! "quick_query" = None.
Proof.
  unfold script_run, pop.
  assert (∀ ss ss' tags, ss !! "quick_query" = None →
            tag_buttons clicked tags ss = (ss', false) →
            ss' !! "quick_query" = None) as Hloop.
  { intros ss ss' tags Hss. induction tags as [|t tags IH]; simpl.
    - by intros [= <-].
    - destruct (clicked t); [done|auto]. }
  destruct (session_state s !! "quick_query") as [v|] eqn:Hq;
    destruct (text_input (field s) _) as [q page];
    destruct (tag_buttons clicked quick_tags _) as [ss' [|]] eqn:Hb;
    intros [= <- <- <-]; simpl;
    (eapply Hloop; [|exact Hb]); [apply lookup_delete_eq|done].
Qed.

(** C8: on a page with no override pending, whatever the text field
    shows, a click on the quick tag "LLM" ends its run with a rerun and
    the override stored; the next run fetches with query "LLM" and
    removes the override; the run after that, without a click, is given
    the script's standing default again and not the tag. *)
Theorem quick_tag_one_shot (s : session) (n1 n2 n3 : Z) :
  session_state s !! "quick_query" = None →
  ∃ s1 s2 s3 q3,
    script_run (click (str "LLM")) n1 s = (s1, Rerun) ∧
    session_state s1 !! "quick_query" = Some (str "LLM") ∧
    script_run no_click n2 s1 = (s2, Fetch (str "LLM") n2) ∧
    session_state s2 !! "quick_query" = None ∧
    script_run no_click n3 s2 = (s3, Fetch q3 n3) ∧
    q3 = fst (text_input (field s2) (str "Artificial Intelligence")) ∧
    session_state s3 !! "quick_query" = None.
Proof.
  intros Hq.
  assert (∀ page, ∃ q1,
    text_input page (str "Artificial Intelligence")
      = (q1, Some (mk_text_field (str "Artificial Intelligence") q1))) as Hw.
  { intros [[c t]|]; simpl; [|eauto].
    destruct (decide _) as [<-|]; simpl; eauto. }
  destruct (Hw (field s)) as [q1 Hq1].
  set (ss1 := <["quick_query" := str "LLM"]> (session_state s)).
  exists (mk_session ss1
            (Some (mk_text_field (str "Artificial Intelligence") q1))),
         (mk_session (delete "quick_query" ss1)
            (Some (mk_text_field (str "LLM") (str "LLM")))),
         (mk_session (delete "quick_query" ss1)
            (Some (mk_text_field (str "Artificial Intelligence")
                                 (str "Artificial Intelligence")))),
         (str "Artificial Intelligence").
  split.
  { unfold script_run, pop. rewrite Hq, Hq1. reflexivity. }
  split; [apply lookup_insert_eq|].
  split.
  { unfold script_run, pop. cbn [session_state field]. unfold ss1.
    rewrite lookup_insert_eq, tag_buttons_no_click.
    unfold text_input. cbn [created_with].
    destruct (decide _) as [Heq|_]; [discriminate Heq|]. reflexivity. }
  cbn [session_state field].
  split; [apply lookup_delete_eq|].
  assert (text_input (Some (mk_text_field (str "LLM") (str "LLM")))
                     (str "Artificial Intelligence")
          = (str "Artificial Intelligence",
             Some (mk_text_field (str "Artificial Intelligence")
                                 (str "Artificial Intelligence")))) as Hq3.
  { unfold text_input. cbn [created_with].
    destruct (decide _) as [Heq|_]; [discriminate Heq|]. reflexivity. }
  split.
  { unfold script_run, pop. cbn [session_state field].
    rewrite lookup_delete_eq, tag_buttons_no_click, Hq3. reflexivity. }
  split; [by rewrite Hq3|].
  apply lookup_delete_eq.
Qed.

Lemma quick_tag_one_shot_witness :
  script_run no_click 15 bitcoin_page = (bitcoin_page, Fetch (str "Bitcoin") 15) ∧
  ∃ s1 s2 s3 q3,
    script_run (click (str "LLM")) 15 bitcoin_page = (s1, Rerun) ∧
    session_state s1 !! "quick_query" = Some (str "LLM") ∧
    script_run no_click 15 s1 = (s2, Fetch (str "LLM") 15) ∧
    session_state s2 !! "quick_query" = None ∧
    script_run no_click 20 s2 = (s3, Fetch q3 20) ∧
    q3 = fst (text_input (field s2) (str "Artificial Intelligence")) ∧
    session_state s3 !! "quick_query" = None.
Proof.
  split; [vm_compute; reflexivity|].
  apply (quick_tag_one_shot bitcoin_page 15 15 20).
  vm_compute. reflexivity.
Defined.

(** ** C7: the cache window *)

(** One run of [fetch_news] reads the parser at one URL only. *)
Lemma fetch_news_one_request parse parse' (query encoded : pystr) (num : Z) :
  quote query = Ok encoded →
  parse (feed_url encoded) = parse' (feed_url encoded) →
  fetch_news parse query num = fetch_news parse' query num.
Proof. intros Hq Hp. unfold fetch_news. rewrite Hq. simpl. by rewrite Hp. Qed.

(** C7: after a call at time t1 that ran [fetch_news] and returned, a call
    with the same (query, limit) at a time t2 within the window
    (t1 <= t2 < t1 + 300) returns the identical result without running
    the function again, whatever the network would answer at t2, and
    leaves the cache as it was: one request for the two calls.  A call
    at a time t3 once the window has elapsed (t1 + 300 <= t3) runs the
    function again, against the network of t3. *)
Theorem cache_window (net : Z → pystr → result feed) (query : pystr) (num : Z)
    (t1 t2 t3 : Z) (cache cache1 : gmap (pystr * Z) cached)
    (v : list article * pystr) :
  cached_fetch_news net t1 query num cache = (Ok v, cache1, true) →
  (t1 ≤ t2 < t1 + 300)%Z →
  (t1 + 300 ≤ t3)%Z →
  cached_fetch_news net t2 query num cache1 = (Ok v, cache1, false) ∧
  ∃ cache3,
    cached_fetch_news net t3 query num cache1
      = (fetch_news (net t3) query num, cache3, true).
Proof.
  intros H1 Hin Hout.
  assert (cache1 !! (query, num) = Some (mk_cached t1 v)) as Hstored.
  { unfold cached_fetch_news in H1.
    destruct (cache !! (query, num)) as [c|];
      [destruct (t1 <? stored_at c + ttl)%Z; [done|]|];
      destruct (fetch_news (net t1) query num); try done;
      injection H1 as <- <-; apply lookup_insert_eq. }
  split.
  - unfold cached_fetch_news. rewrite Hstored. cbn [stored_at value].
    unfold ttl. by destruct (Z.ltb_spec t2 (t1 + 300)); [|lia].
  - unfold cached_fetch_news. rewrite Hstored. cbn [stored_at].
    unfold ttl. destruct (Z.ltb_spec t3 (t1 + 300)); [lia|].
    destruct (fetch_news (net t3) query num); eauto.
Qed.

Lemma cache_window_witness :
  cached_fetch_news changing_net 0 (str "AI") 5 ∅
    = (Ok ([numbered_article "1"], feed_url (str "AI")), warm_cache, true) ∧
  fetch_news (changing_net 200) (str "AI") 5
    ≠ Ok ([numbered_article "1"], feed_url (str "AI")) ∧
  cached_fetch_news changing_net 200 (str "AI") 5 warm_cache
    = (Ok ([numbered_article "1"], feed_url (str "AI")), warm_cache, false) ∧
  ∃ cache3,
    cached_fetch_news changing_net 400 (str "AI") 5 warm_cache
      = (fetch_news (changing_net 400) (str "AI") 5, cache3, true).
Proof.
  split; [vm_compute; reflexivity|].
  split; [vm_compute; discriminate|].
  apply (cache_window changing_net (str "AI") 5 0 200 400 ∅).
  - vm_compute. reflexivity.
  - lia.
  - lia.
Defined.

(** * Further properties of the code *)

(** ** The request URL *)

Lemma lor_byte (a b : N) : (a < 256 → b < 256 → N.lor a b < 256)%N.
Proof.
  intros Ha Hb.
  destruct (N.eq_dec (N.lor a b) 0%N) as [->|Hne]; [lia|].
  change 256%N with (2 ^ 8)%N. apply N.log2_lt_pow2; [lia|].
  rewrite N.log2_lor.
  assert (∀ x, (x < 256 → N.log2 x < 8)%N) as Hlog.
  { intros x Hx. destruct (N.eq_dec x 0%N) as [->|]; [done|].
    apply N.log2_lt_pow2; [lia|done]. }
  pose proof (Hlog a Ha). pose proof (Hlog b Hb). lia.
Qed.

Lemma land_63 (c : N) : (N.land c 63 < 64)%N.
Proof.
  change 63%N with (N.ones 6). rewrite N.land_ones.
  apply N.mod_lt. done.
Qed.

Lemma utf8_encode_char_bytes (c : char) (bs : list N) :
  utf8_encode_char c = Ok bs → Forall (λ b, (b < 256)%N) bs.
Proof.
  unfold utf8_encode_char.
  destruct (N.ltb_spec c 128).
  { intros [= <-]. repeat constructor. lia. }
  destruct (N.ltb_spec c 2048).
  { intros [= <-]. pose proof (land_63 c).
    assert (N.shiftr c 6 < 32)%N.
    { rewrite N.shiftr_div_pow2. apply N.Div0.div_lt_upper_bound. simpl. lia. }
    repeat constructor; apply lor_byte; lia. }
  destruct (N.ltb_spec c 65536).
  { destruct ((55296 <=? c)%N && (c <=? 57343)%N); [done|].
    intros [= <-]. pose proof (land_63 c). pose proof (land_63 (N.shiftr c 6)).
    assert (N.shiftr c 12 < 16)%N.
    { rewrite N.shiftr_div_pow2. apply N.Div0.div_lt_upper_bound. simpl. lia. }
    repeat constructor; apply lor_byte; lia. }
  destruct (N.ltb_spec c 1114112); [|done].
  intros [= <-]. pose proof (land_63 c). pose proof (land_63 (N.shiftr c 6)).
  pose proof (land_63 (N.shiftr c 12)).
  assert (N.shiftr c 18 < 16)%N.
  { rewrite N.shiftr_div_pow2. apply N.Div0.div_lt_upper_bound. simpl. lia. }
  repeat constructor; apply lor_byte; lia.
Qed.

Lemma utf8_encode_bytes (s : pystr) (bs : list N) :
  utf8_encode s = Ok bs → Forall (λ b, (b < 256)%N) bs.
Proof.
  revert bs. induction s as [|c s IH]; simpl; intros bs.
  - intros [= <-]. constructor.
  - destruct (utf8_encode_char c) as [b1|] eqn:Hc; [|done]. simpl.
    destruct (utf8_encode s) as [b2|]; [|done]. simpl.
    intros [= <-]. apply Forall_app. split; [|by apply IH].
    by apply (utf8_encode_char_bytes c).
Qed.

Lemma hex_digit_safe (n : N) : (n < 16)%N → quote_safe (hex_digit n) = true.
Proof.
  intros H. unfold hex_digit, quote_safe.
  destruct (N.ltb_spec n 10).
  - assert ((48 <=? 48 + n)%N = true) as -> by (apply N.leb_le; lia).
    assert ((48 + n <=? 57)%N = true) as -> by (apply N.leb_le; lia).
    cbn [andb]. by rewrite !orb_true_r.
  - assert ((65 <=? 55 + n)%N = true) as -> by (apply N.leb_le; lia).
    assert ((55 + n <=? 90)%N = true) as -> by (apply N.leb_le; lia).
    done.
Qed.

Lemma quote_byte_url_chars (b : N) :
  (b < 256)%N → Forall (λ c, url_char c = true) (quote_byte b).
Proof.
  intros Hb. unfold quote_byte, url_char.
  destruct (quote_safe b) eqn:Hs.
  - repeat constructor. by rewrite Hs.
  - assert (N.shiftr b 4 < 16)%N.
    { rewrite N.shiftr_div_pow2. apply N.Div0.div_lt_upper_bound. simpl. lia. }
    assert (N.land b 15 < 16)%N.
    { change 15%N with (N.ones 4). rewrite N.land_ones. by apply N.mod_lt. }
    apply Forall_cons. split; [done|].
    apply Forall_cons. split; [by rewrite hex_digit_safe|].
    apply Forall_cons. split; [by rewrite hex_digit_safe|]. constructor.
Qed.

Lemma quote_url_chars (s encoded : pystr) :
  quote s = Ok encoded → Forall (λ c, url_char c = true) encoded.
Proof.
  unfold quote. destruct (utf8_encode s) as [bs|] eqn:Hbs; [|done]. simpl.
  intros [= <-]. apply utf8_encode_bytes in Hbs.
  induction Hbs as [|b bs Hb _ IH]; simpl; [constructor|].
  apply Forall_app. split; [by apply quote_byte_url_chars|done].
Qed.

(** The request URL: the fixed endpoint, the query as [quote] encodes it,
    the fixed locale parameters; the encoded query holds safe characters
    and percent signs only, so it cannot end the parameter or add one. *)
Theorem fetch_news_url_shape parse (query : pystr) (num : Z)
    (articles : list article) (url : pystr) :
  fetch_news parse query num = Ok (articles, url) →
  ∃ encoded,
    quote query = Ok encoded ∧
    url = str "https://news.google.com/rss/search?q=" ++ encoded
          ++ str "&hl=ja&gl=JP&ceid=JP:ja" ∧
    Forall (λ c, url_char c = true) encoded ∧
    (AMP ∉ encoded) ∧ (61%N ∉ encoded) ∧ (63%N ∉ encoded) ∧
    (35%N ∉ encoded) ∧ (32%N ∉ encoded).
Proof.
  intros (encoded & f & Hq & -> & _)%fetch_news_ok.
  exists encoded. split; [done|]. split; [reflexivity|].
  pose proof (quote_url_chars _ _ Hq) as Hall.
  split; [done|].
  rewrite Forall_forall in Hall.
  repeat split; intros Hin; apply Hall in Hin; discriminate Hin.
Qed.

Lemma fetch_news_url_shape_witness :
  ∃ encoded,
    quote injecting_query = Ok encoded ∧
    str "https://news.google.com/rss/search?q=a%26hl%3Den%20b&hl=ja&gl=JP&ceid=JP:ja"
      = str "https://news.google.com/rss/search?q=" ++ encoded
        ++ str "&hl=ja&gl=JP&ceid=JP:ja" ∧
    Forall (λ c, url_char c = true) encoded ∧
    (AMP ∉ encoded) ∧ (61%N ∉ encoded) ∧ (63%N ∉ encoded) ∧
    (35%N ∉ encoded) ∧ (32%N ∉ encoded).
Proof.
  apply (fetch_news_url_shape (serve (mk_feed false [])) injecting_query 20 []).
  vm_compute. reflexivity.
Defined.

(** A query of letters, digits and [_.-~/] is sent as it is. *)
Theorem quote_safe_unchanged (query : pystr) :
  Forall (λ c, quote_safe c = true) query → quote query = Ok query.
Proof.
  intros H. unfold quote.
  assert (utf8_encode query = Ok query ∧ flat_map quote_byte query = query)
    as [H1 H2]; [|rewrite H1; simpl; by rewrite H2].
  induction H as [|c s Hc _ [IH1 IH2]]; [done|].
  assert (c < 128)%N as Hlt.
  { unfold quote_safe in Hc.
    destruct (N.ltb_spec c 128) as [|Hge]; [done|]. exfalso.
    repeat match type of Hc with
    | context [(?a <=? ?b)%N] => destruct (N.leb_spec a b); try lia
    | context [(?a =? ?b)%N] => destruct (N.eqb_spec a b); try lia
    end; simpl in Hc; discriminate. }
  split.
  - simpl. unfold utf8_encode_char.
    destruct (N.ltb_spec c 128); [|lia]. simpl. by rewrite IH1.
  - simpl. unfold quote_byte at 1. rewrite Hc. simpl. by rewrite IH2.
Qed.

Lemma quote_safe_unchanged_witness : quote (str "ChatGPT-4_v2.0/~x") = Ok (str "ChatGPT-4_v2.0/~x").
Proof.
  apply quote_safe_unchanged.
  repeat (apply Forall_cons; split; [reflexivity|]). apply Forall_nil_2.
Defined.

Lemma utf8_encode_char_not_scalar (c : char) :
  scalar c = false → utf8_encode_char c = Raise UnicodeEncodeError.
Proof.
  unfold scalar, utf8_encode_char. intros H.
  destruct (N.ltb_spec c 55296), (N.ltb_spec 57343 c), (N.ltb_spec c 1114112);
    simpl in H; try done; try lia.
  - destruct (N.ltb_spec c 128); [lia|]. destruct (N.ltb_spec c 2048); [lia|].
    destruct (N.ltb_spec c 65536); [lia|]. done.
  - destruct (N.ltb_spec c 128); [lia|]. destruct (N.ltb_spec c 2048); [lia|].
    destruct (N.ltb_spec c 65536); [|lia].
    destruct (N.leb_spec 55296 c), (N.leb_spec c 57343); try lia. done.
Qed.

(** A query with a lone surrogate cannot be encoded: [fetch_news] raises
    [UnicodeEncodeError] and the parser is never called. *)
Theorem fetch_news_surrogate_query parse (query : pystr) (num : Z) :
  Exists (λ c, scalar c = false) query →
  fetch_news parse query num = Raise UnicodeEncodeError ∧
  ∀ parse', fetch_news parse' query num = fetch_news parse query num.
Proof.
  intros H.
  assert (quote query = Raise UnicodeEncodeError) as Hq.
  { unfold quote.
    assert (utf8_encode query = Raise UnicodeEncodeError) as ->; [|done].
    induction H as [c s Hc|c s _ IH]; simpl.
    - by rewrite utf8_encode_char_not_scalar.
    - destruct (utf8_encode_char c) as [b|y] eqn:Hc; simpl.
      + by rewrite IH.
      + destruct (scalar c) eqn:Hs.
        * destruct (utf8_encode_char_scalar c Hs). congruence.
        * rewrite utf8_encode_char_not_scalar in Hc by done. congruence. }
  unfold fetch_news. rewrite Hq. done.
Qed.

Lemma fetch_news_surrogate_query_witness :
  fetch_news (serve three_entries) (str "AI" ++ [55357%N]) 20
    = Raise UnicodeEncodeError ∧
  ∀ parse', fetch_news parse' (str "AI" ++ [55357%N]) 20
            = fetch_news (serve three_entries) (str "AI" ++ [55357%N]) 20.
Proof.
  apply (fetch_news_surrogate_query (serve three_entries) (str "AI" ++ [55357%N]) 20).
  apply Exists_app. right. apply Exists_cons_hd. reflexivity.
Defined.

(** ** Which exceptions leave the loop *)

Lemma fetch_news_entry_raise (e : Entry.t) (x : exn) :
  fetch_news_entry e = Raise x ↔
  (Entry.title e = None ∧ x = AttributeError "title") ∨
  (is_Some (Entry.title e) ∧ Entry.link e = None ∧ x = AttributeError "link").
Proof.
  unfold fetch_news_entry.
  destruct (Entry.title e) as [t|], (Entry.link e) as [l|]; simpl; split;
    try done.
  - intros [[? _]|(_ & ? & _)]; done.
  - intros [= <-]. right. eauto.
  - intros [[? _]|(_ & _ & ->)]; done.
  - intros [= <-]. by left.
  - intros [[_ ->]|([? ?] & _)]; done.
  - intros [= <-]. by left.
  - intros [[_ ->]|([? ?] & _)]; done.
Qed.

Lemma fetch_news_loop_raise (es : list Entry.t) (acc : list article) (x : exn) :
  fetch_news_loop es acc = Raise x ↔
  ∃ i e, es !! i = Some e ∧ fetch_news_entry e = Raise x ∧
    ∀ j e', j < i → es !! j = Some e' → ∃ a, fetch_news_entry e' = Ok a.
Proof.
  revert acc. induction es as [|e0 es IH]; intros acc; simpl.
  - split; [done|]. by intros (i & e & ? & _).
  - destruct (fetch_news_entry e0) as [a0|y] eqn:H0; simpl.
    + rewrite IH. split.
      * intros (i & e & He & Hx & Hbefore). exists (S i), e.
        split; [done|]. split; [done|].
        intros [|j] e' Hj He'.
        -- injection He' as <-. eauto.
        -- apply (Hbefore j); [lia|done].
      * intros (i & e & He & Hx & Hbefore). destruct i as [|i].
        -- injection He as <-. congruence.
        -- exists i, e. split; [done|]. split; [done|].
           intros j e' Hj He'. apply (Hbefore (S j)); [lia|done].
    + split.
      * intros [= <-]. exists 0, e0. split; [done|]. split; [done|].
        intros j e' Hj. lia.
      * intros (i & e & He & Hx & Hbefore). destruct i as [|i].
        -- injection He as <-. congruence.
        -- destruct (Hbefore 0 e0) as [a Ha]; [lia|done|congruence].
Qed.

(** Once the query is encoded and the parser has returned, [fetch_news]
    raises exactly when one of the entries it takes lacks a title or a
    link: the exception is the [AttributeError] of the first such entry,
    for its title if that is missing and for its link otherwise.  Dates
    and summaries never make it raise. *)
Theorem fetch_news_raises_iff parse (query encoded : pystr) (num : Z)
    (f : feed) (x : exn) :
  quote query = Ok encoded →
  parse (feed_url encoded) = Ok f →
  fetch_news parse query num = Raise x ↔
  ∃ i e, slice_to (entries f) num !! i = Some e ∧
    (∀ j e', j < i → slice_to (entries f) num !! j = Some e' →
       is_Some (Entry.title e') ∧ is_Some (Entry.link e')) ∧
    ((Entry.title e = None ∧ x = AttributeError "title") ∨
     (is_Some (Entry.title e) ∧ Entry.link e = None ∧
      x = AttributeError "link")).
Proof.
  intros Hq Hp. unfold fetch_news. rewrite Hq. simpl. rewrite Hp. simpl.
  destruct (fetch_news_loop (slice_to (entries f) num) []) as [r|y] eqn:Hl;
    simpl.
  - split; [done|].
    intros (i & e & He & Hbefore & Hx).
    apply fetch_news_entry_raise in Hx.
    assert (fetch_news_loop (slice_to (entries f) num) [] = Raise x) as Hr.
    { apply fetch_news_loop_raise. exists i, e. split; [done|]. split; [done|].
      intros j e' Hj He'. destruct (Hbefore j e' Hj He') as [[t Ht] [l Hl']].
      eexists. apply fetch_news_entry_ok. by exists t, l. }
    congruence.
  - apply fetch_news_loop_raise in Hl as (i & e & He & Hx & Hbefore). split.
    + intros [= <-]. exists i, e. split; [done|].
      split; [|by apply fetch_news_entry_raise].
      intros j e' Hj He'. destruct (Hbefore j e' Hj He') as [a Ha].
      apply fetch_news_entry_ok in Ha as (t & l & -> & -> & _). eauto.
    + intros (i' & e' & He' & Hbefore' & Hx').
      apply fetch_news_entry_raise in Hx'.
      f_equal.
      destruct (Nat.lt_trichotomy i i') as [Hlt| [->|Hlt]].
      * destruct (Hbefore' i e Hlt He) as [[t Ht] [l Hl']].
        apply fetch_news_entry_raise in Hx as [[? _]|(_ & ? & _)]; congruence.
      * congruence.
      * destruct (Hbefore i' e' Hlt He') as [a Ha]. congruence.
Qed.

Lemma fetch_news_raises_iff_witness :
  fetch_news (serve (mk_feed false [numbered "1"; unlinked; untitled]))
             (str "AI") 20 = Raise (AttributeError "link") ∧
  ∃ a, fetch_news (serve (mk_feed false [numbered "1"; unlinked; untitled]))
                  (str "AI") 1 = Ok ([a], feed_url (str "AI")).
Proof.
  split; [|eexists; vm_compute; reflexivity].
  apply (fetch_news_raises_iff
           (serve (mk_feed false [numbered "1"; unlinked; untitled]))
           (str "AI") (str "AI") 20
           (mk_feed false [numbered "1"; unlinked; untitled])).
  - reflexivity.
  - reflexivity.
  - exists 1, unlinked. split; [reflexivity|]. split.
    + intros [|j] e' Hj He'; [|lia]. injection He' as <-.
      split; eexists; reflexivity.
    + right. split; [eexists; reflexivity|]. split; reflexivity.
Defined.

(** ** A limit of zero or below *)

(** With a negative limit the slice counts from the end: [fetch_news]
    leaves out the last [-num] entries (all of them when there are not
    more) and returns the articles of the others, in feed order; with
    [num = 0] it returns no article, whatever the feed holds. *)
Theorem fetch_news_limit_not_positive parse (query : pystr) (num : Z)
    (articles : list article) (url : pystr) (f : feed) :
  (num ≤ 0)%Z →
  fetch_news parse query num = Ok (articles, url) →
  parse url = Ok f →
  (num = 0%Z → articles = []) ∧
  ((num < 0)%Z →
     length articles = Z.to_nat (Z.of_nat (length (entries f)) + num)) ∧
  ∀ i a, articles !! i = Some a →
    ∃ e, entries f !! i = Some e ∧ fetch_news_entry e = Ok a.
Proof.
  intros Hnum Hf Hp.
  pose proof Hf as (enc & f' & _ & _ & Hf' & H2)%fetch_news_ok.
  rewrite Hp in Hf'. injection Hf' as <-.
  split; [|split].
  - intros ->. unfold slice_to in H2. simpl in H2.
    by apply Forall2_nil_inv_l in H2.
  - intros Hneg. apply Forall2_length in H2. rewrite <- H2.
    unfold slice_to. destruct (Z.ltb_spec num 0); [|lia].
    rewrite length_take. lia.
  - intros i a Ha.
    destruct (Forall2_lookup_r _ _ _ _ _ H2 Ha) as (e & He & Hea).
    unfold slice_to in He.
    destruct (num <? 0)%Z; apply lookup_take_Some in He as [He _]; eauto.
Qed.

Lemma fetch_news_limit_not_positive_witness :
  fetch_news (serve three_entries) (str "AI") (-1)
    = Ok ([numbered_article "1"; numbered_article "2"], feed_url (str "AI")) ∧
  ((-1 = 0)%Z → [numbered_article "1"; numbered_article "2"] = []) ∧
  ((-1 < 0)%Z →
     length [numbered_article "1"; numbered_article "2"]
       = Z.to_nat (Z.of_nat (length (entries three_entries)) + -1)) ∧
  ∀ i a, [numbered_article "1"; numbered_article "2"] !! i = Some a →
    ∃ e, entries three_entries !! i = Some e ∧ fetch_news_entry e = Ok a.
Proof.
  split; [vm_compute; reflexivity|].
  apply (fetch_news_limit_not_positive (serve three_entries) (str "AI") (-1)
           [numbered_article "1"; numbered_article "2"] (feed_url (str "AI"))
           three_entries).
  - lia.
  - vm_compute. reflexivity.
  - reflexivity.
Defined.

(** ** Tag removal *)

Lemma after_gt_None (s : pystr) : after_gt s = None ↔ GT ∉ s.
Proof.
  induction s as [|c s IH]; simpl.
  - split; [intros _; apply not_elem_of_nil|done].
  - rewrite not_elem_of_cons. destruct (N.eqb_spec c GT) as [->|Hne].
    + split; [done|]. by intros [? _].
    + rewrite IH. split; [by intros ?|by intros [_ ?]].
Qed.

Lemma no_gt_no_tag (s : pystr) : GT ∉ s → no_tag s.
Proof.
  induction s as [|c s IH]; [done|].
  intros [Hc Hs]%not_elem_of_cons. split; [|by apply IH].
  destruct s as [|d s]; [done|]. simpl.
  destruct ((c =? LT)%N && negb (d =? GT)%N); [|done].
  apply after_gt_None. by apply not_elem_of_cons in Hs as [_ ?].
Qed.

Lemma re_sub_tags_no_tag (s : pystr) : no_tag s → re_sub_tags s = s.
Proof.
  induction s as [|c s IH]; [done|].
  intros [Hm Hs]. rewrite re_sub_tags_cons, Hm. f_equal. by apply IH.
Qed.

Lemma tag_match_not_lt (c : char) (s : pystr) :
  c ≠ LT → tag_match (c :: s) = None.
Proof.
  intros Hc. destruct s as [|d s]; [done|]. simpl.
  by destruct (N.eqb_spec c LT).
Qed.

(** What [re.sub] returns holds no tag any more. *)
Lemma re_sub_tags_leaves_no_tag (s : pystr) : no_tag (re_sub_tags s).
Proof.
  remember (length s) as n eqn:Hn. revert s Hn.
  induction n as [n IH] using lt_wf_ind. intros s ->.
  destruct s as [|c rest]; [done|].
  rewrite re_sub_tags_cons.
  destruct (tag_match (c :: rest)) as [s'|] eqn:Hm.
  - apply (IH (length s')); [by apply tag_match_length in Hm|done].
  - assert (no_tag (re_sub_tags rest)) as Hrest
      by (apply (IH (length rest)); [simpl; lia|done]).
    split; [|done].
    destruct rest as [|d rest']; [done|].
    simpl in Hm.
    destruct (N.eqb_spec c LT) as [->|Hc]; simpl in Hm.
    2: { by apply tag_match_not_lt. }
    destruct (N.eqb_spec d GT) as [->|Hd]; simpl in Hm.
    + rewrite re_sub_tags_cons. by destruct rest'.
    + apply after_gt_None in Hm.
      assert (GT ∉ d :: rest') as Hno by (by apply not_elem_of_cons).
      rewrite (re_sub_tags_no_tag (d :: rest')) by (by apply no_gt_no_tag).
      simpl. destruct (N.eqb_spec d GT); [done|]. simpl.
      by apply after_gt_None.
Qed.

(** Removing the tags a second time changes nothing. *)
Theorem re_sub_tags_idempotent (s : pystr) :
  re_sub_tags (re_sub_tags s) = re_sub_tags s.
Proof. apply re_sub_tags_no_tag, re_sub_tags_leaves_no_tag. Qed.

Lemma after_gt_sublist (s s' : pystr) : after_gt s = Some s' → s' `sublist_of` s.
Proof.
  induction s as [|c s IH]; simpl; [done|].
  destruct (c =? GT)%N.
  - intros [= <-]. by apply sublist_cons.
  - intros H. apply sublist_cons. by apply IH.
Qed.

Lemma tag_match_sublist (s s' : pystr) : tag_match s = Some s' → s' `sublist_of` s.
Proof.
  destruct s as [|c [|d rest]]; simpl; try done.
  destruct ((c =? LT)%N && negb (d =? GT)%N); [|done].
  intros H%after_gt_sublist. by do 2 apply sublist_cons.
Qed.

(** Tag removal only deletes characters: what is left is what was there,
    in the same order. *)
Lemma re_sub_tags_sublist (s : pystr) : re_sub_tags s `sublist_of` s.
Proof.
  remember (length s) as n eqn:Hn. revert s Hn.
  induction n as [n IH] using lt_wf_ind. intros s ->.
  destruct s as [|c rest]; [done|].
  rewrite re_sub_tags_cons.
  destruct (tag_match (c :: rest)) as [s'|] eqn:Hm.
  - etrans; [|by apply tag_match_sublist].
    apply (IH (length s')); [by apply tag_match_length in Hm|done].
  - apply sublist_skip. apply (IH (length rest)); [simpl; lia|done].
Qed.

(** ** Trimming *)

Lemma lstrip_spaces (s : pystr) :
  ∃ ws, s = ws ++ lstrip s ∧ Forall (λ c, isspace c = true) ws.
Proof.
  induction s as [|c s (ws & Hs & Hws)]; [by exists []|].
  simpl. destruct (isspace c) eqn:Hc.
  - exists (c :: ws). split; [by rewrite <- app_comm_cons, <- Hs|by constructor].
  - by exists [].
Qed.

Lemma lstrip_all_spaces (s : pystr) :
  Forall (λ c, isspace c = true) s → lstrip s = [].
Proof. induction 1 as [|c s Hc _ IH]; simpl; [done|by rewrite Hc]. Qed.

Lemma lstrip_head (s : pystr) (c : char) (rest : pystr) :
  s = c :: rest → isspace c = false → lstrip s = s.
Proof. intros -> Hc. simpl. by rewrite Hc. Qed.

Lemma rstrip_spaces (s : pystr) :
  ∃ ws, s = rstrip s ++ ws ∧ Forall (λ c, isspace c = true) ws.
Proof.
  unfold rstrip. destruct (lstrip_spaces (rev s)) as (ws & Hs & Hws).
  exists (rev ws). split.
  - rewrite <- rev_app_distr, <- Hs. by rewrite rev_involutive.
  - apply Forall_forall. intros c Hc. rewrite Forall_forall in Hws.
    apply Hws. apply list_elem_of_In. apply list_elem_of_In in Hc.
    by apply in_rev.
Qed.

Lemma strip_sublist (s : pystr) : strip s `sublist_of` s.
Proof.
  unfold strip.
  destruct (lstrip_spaces s) as (ws & Hs & _).
  destruct (rstrip_spaces (lstrip s)) as (ws' & Hs' & _).
  rewrite Hs at 2. apply sublist_inserts_l.
  rewrite Hs' at 2. by apply sublist_inserts_r.
Qed.

Lemma strip_unchanged (s : pystr) (c d : char) (mid : pystr) :
  isspace c = false → isspace d = false →
  s = [c] ∨ s = c :: mid ++ [d] → strip s = s.
Proof.
  intros Hc Hd Hs. unfold strip.
  assert (lstrip s = s) as ->
    by (destruct Hs as [->| ->]; simpl; by rewrite Hc).
  unfold rstrip. destruct Hs as [->| ->].
  - simpl. by rewrite Hc.
  - rewrite app_comm_cons.
    assert (rev ((c :: mid) ++ [d]) = d :: rev (c :: mid)) as Hrev
      by (by rewrite rev_app_distr).
    rewrite Hrev. cbn [lstrip]. rewrite Hd, <- Hrev.
    apply rev_involutive.
Qed.

(** ** The summary field, end to end *)

(** The cleaned text of a summary is made of characters of the summary,
    in their order: nothing is added before the cut. *)
Theorem cleaned_summary_sublist (s : pystr) :
  strip (re_sub_tags s) `sublist_of` s.
Proof. etrans; [apply strip_sublist|apply re_sub_tags_sublist]. Qed.

Lemma escape_plain (s : pystr) :
  Forall (λ c, special c = false) s → escape s = s.
Proof.
  rewrite escape_flat_map.
  induction 1 as [|c s Hc _ IH]; simpl; [done|]. rewrite IH.
  unfold special in Hc. unfold escape_char.
  destruct (c =? AMP)%N, (c =? LT)%N, (c =? GT)%N, (c =? QUOT)%N,
    (c =? APOS)%N; done.
Qed.

Lemma entry_summary_blank (e : Entry.t) :
  Entry.summary e = None ∨
  (∃ s, Entry.summary e = Some s ∧ Forall (λ c, isspace c = true) s) →
  entry_summary e = [].
Proof.
  intros H. unfold entry_summary.
  assert (strip (re_sub_tags (getattr (Entry.summary e) [])) = []) as ->; [|done].
  destruct H as [->|(s & -> & Hs)]; [done|]. simpl.
  rewrite re_sub_tags_no_tag.
  - unfold strip. by rewrite lstrip_all_spaces.
  - apply no_gt_no_tag. intros Hin. rewrite Forall_forall in Hs.
    apply Hs in Hin. discriminate Hin.
Qed.

(** An entry without a summary, or with one made of white space only, is
    shown with the placeholder text. *)
Theorem fetch_news_blank_summary parse (query : pystr) (num : Z)
    (articles : list article) (url : pystr) (f : feed)
    (i : nat) (a : article) (e : Entry.t) :
  fetch_news parse query num = Ok (articles, url) →
  parse url = Ok f →
  articles !! i = Some a →
  slice_to (entries f) num !! i = Some e →
  Entry.summary e = None ∨
  (∃ s, Entry.summary e = Some s ∧ Forall (λ c, isspace c = true) s) →
  summary a = NO_SUMMARY.
Proof.
  intros Hf Hp Ha He Hblank.
  destruct (fetch_news_lookup _ _ _ _ _ _ _ _ Hf Hp Ha) as (e' & He' & Hea).
  rewrite He in He'. injection He' as <-.
  apply fetch_news_entry_ok in Hea as (t & l & _ & _ & ->). simpl.
  by rewrite entry_summary_blank.
Qed.

Lemma fetch_news_blank_summary_witness : summary blank_article = NO_SUMMARY.
Proof.
  apply (fetch_news_blank_summary
           (serve (mk_feed false [blank])) (str "AI") 20
           [blank_article] (feed_url (str "AI")) (mk_feed false [blank])
           0 blank_article blank).
  - vm_compute. reflexivity.
  - reflexivity.
  - reflexivity.
  - reflexivity.
  - right. eexists. split; [reflexivity|].
    repeat (apply Forall_cons; split; [reflexivity|]). apply Forall_nil_2.
Defined.

(** Plain text passes unchanged: a title without ampersand, angle bracket
    or quote is returned as it is, and so is a summary of at most 300 such
    characters that neither begins nor ends with white space. *)
Theorem fetch_news_plain_text parse (query : pystr) (num : Z)
    (articles : list article) (url : pystr) (f : feed)
    (i : nat) (a : article) (e : Entry.t) :
  fetch_news parse query num = Ok (articles, url) →
  parse url = Ok f →
  articles !! i = Some a →
  slice_to (entries f) num !! i = Some e →
  (∀ t, Entry.title e = Some t → Forall (λ c, special c = false) t →
     title a = t) ∧
  (∀ s c d mid, Entry.summary e = Some s →
     Forall (λ c, special c = false) s → length s ≤ 300 →
     isspace c = false → isspace d = false →
     s = [c] ∨ s = c :: mid ++ [d] →
     summary a = s).
Proof.
  intros Hf Hp Ha He.
  destruct (fetch_news_lookup _ _ _ _ _ _ _ _ Hf Hp Ha) as (e' & He' & Hea).
  rewrite He in He'. injection He' as <-.
  apply fetch_news_entry_ok in Hea as (t & l & Ht & _ & ->). simpl. split.
  - intros t' Ht' Hplain. rewrite Ht in Ht'. injection Ht' as <-.
    by apply escape_plain.
  - intros s c d mid Hs Hplain Hlen Hc Hd Hshape.
    unfold entry_summary. rewrite Hs. simpl getattr.
    rewrite re_sub_tags_no_tag.
    2: { apply no_gt_no_tag. intros Hin. rewrite Forall_forall in Hplain.
         apply Hplain in Hin. discriminate Hin. }
    rewrite (strip_unchanged s c d mid) by done.
    destruct (Nat.ltb_spec 300 (length s)); [lia|].
    unfold safe_summary_of. destruct s as [|x s'].
    + by destruct Hshape.
    + by apply escape_plain.
Qed.

(** The summary field is never the empty string. *)
Theorem fetch_news_summary_not_empty parse (query : pystr) (num : Z)
    (articles : list article) (url : pystr) (a : article) :
  fetch_news parse query num = Ok (articles, url) →
  a ∈ articles →
  summary a ≠ [].
Proof.
  intros Hf Ha.
  destruct (fetch_news_elem _ _ _ _ _ _ Hf Ha) as (e & He).
  apply fetch_news_entry_ok in He as (t & l & _ & _ & ->). simpl.
  unfold safe_summary_of. destruct (entry_summary e) as [|c s]; [done|].
  intros Hnil. pose proof (escape_length (c :: s)) as [Hl _].
  rewrite Hnil in Hl. simpl in Hl. lia.
Qed.

Lemma fetch_news_plain_text_witness :
  title plain_news_article = str "OpenAI ships a model" ∧
  summary plain_news_article = str "Plain text, no markup.".
Proof.
  destruct (fetch_news_plain_text
              (serve (mk_feed false [plain_news])) (str "AI") 20
              [plain_news_article] (feed_url (str "AI"))
              (mk_feed false [plain_news]) 0 plain_news_article plain_news)
    as [Htitle Hsummary].
  - vm_compute. reflexivity.
  - reflexivity.
  - reflexivity.
  - reflexivity.
  - split.
    + apply Htitle; [reflexivity|].
      repeat (apply Forall_cons; split; [reflexivity|]). apply Forall_nil_2.
    + apply (Hsummary _ 80%N 46%N (str "lain text, no markup")).
      * reflexivity.
      * repeat (apply Forall_cons; split; [reflexivity|]). apply Forall_nil_2.
      * simpl. lia.
      * reflexivity.
      * reflexivity.
      * right. reflexivity.
Defined.

Lemma fetch_news_summary_not_empty_witness : summary blank_article ≠ [].
Proof.
  apply (fetch_news_summary_not_empty
           (serve (mk_feed false [blank])) (str "AI") 20
           [blank_article] (feed_url (str "AI")) blank_article).
  - vm_compute. reflexivity.
  - apply list_elem_of_here.
Defined.

(** ** [html.escape] loses nothing *)

Lemma escape_char_head (c : char) : ∃ x rest, escape_char c = x :: rest.
Proof.
  unfold escape_char.
  repeat (match goal with |- context [N.eqb ?a ?b] => destruct (N.eqb a b) end);
    by eexists _, _.
Qed.

Lemma escape_char_cancel (a b : char) (s t : pystr) :
  escape_char a ++ s = escape_char b ++ t → a = b ∧ s = t.
Proof.
  unfold escape_char.
  destruct (N.eqb_spec a AMP) as [->|Ha1];
    [|destruct (N.eqb_spec a LT) as [->|Ha2];
    [|destruct (N.eqb_spec a GT) as [->|Ha3];
    [|destruct (N.eqb_spec a QUOT) as [->|Ha4];
    [|destruct (N.eqb_spec a APOS) as [->|Ha5]]]]];
  (destruct (N.eqb_spec b AMP) as [->|Hb1];
    [|destruct (N.eqb_spec b LT) as [->|Hb2];
    [|destruct (N.eqb_spec b GT) as [->|Hb3];
    [|destruct (N.eqb_spec b QUOT) as [->|Hb4];
    [|destruct (N.eqb_spec b APOS) as [->|Hb5]]]]]);
  simpl; intros H; injection H; intros; subst; try done;
    try discriminate.
Qed.

(** Escaping is one-to-one: two texts with the same escaped form are the
    same text. *)
Lemma escape_injective (s t : pystr) : escape s = escape t → s = t.
Proof.
  rewrite !escape_flat_map. revert t.
  induction s as [|a s IH]; intros [|b t]; simpl.
  - done.
  - intros H. destruct (escape_char_head b) as (x & r & Hb).
    rewrite Hb in H. discriminate.
  - intros H. destruct (escape_char_head a) as (x & r & Ha).
    rewrite Ha in H. discriminate.
  - intros [-> Hst]%escape_char_cancel. f_equal. by apply IH.
Qed.

(** Two entries whose articles carry the same title had the same title in
    the feed: escaping keeps titles apart. *)
Theorem fetch_news_entry_title_injective (e1 e2 : Entry.t) (a1 a2 : article) :
  fetch_news_entry e1 = Ok a1 →
  fetch_news_entry e2 = Ok a2 →
  title a1 = title a2 →
  Entry.title e1 = Entry.title e2.
Proof.
  intros (t1 & l1 & -> & _ & ->)%fetch_news_entry_ok
         (t2 & l2 & -> & _ & ->)%fetch_news_entry_ok.
  simpl. by intros ->%escape_injective.
Qed.

Lemma fetch_news_entry_title_injective_witness :
  Entry.title marked_up = Entry.title (plain_entry (str "<script>alert(1)</script>") []).
Proof.
  apply (fetch_news_entry_title_injective
           marked_up (plain_entry (str "<script>alert(1)</script>") [])
           marked_up_article
           {| title := str "&lt;script&gt;alert(1)&lt;/script&gt;";
              link := str "https://example.org/a";
              published := []; summary := NO_SUMMARY |}).
  - vm_compute. reflexivity.
  - vm_compute. reflexivity.
  - reflexivity.
Defined.

(** ** The formatted publish time *)

Lemma check_datetime_ok (dt dt' : datetime) :
  check_datetime dt = Ok dt' →
  dt' = dt ∧
  (1 ≤ year dt ≤ 9999 ∧ 1 ≤ month dt ≤ 12 ∧ 1 ≤ day dt ≤ 31 ∧
   0 ≤ hour dt ≤ 23 ∧ 0 ≤ minute dt ≤ 59 ∧ 0 ≤ second dt ≤ 59)%Z.
Proof.
  unfold check_datetime.
  destruct (_ && _) eqn:H; [|done]. intros [= <-]. split; [done|].
  repeat (apply andb_prop in H as [H ?]).
  assert (days_in_month (year dt) (month dt) ≤ 31)%Z.
  { unfold days_in_month.
    destruct (month dt =? 2)%Z; [destruct (is_leap (year dt)); lia|].
    destruct (_ || _); lia. }
  lia.
Qed.

Lemma datetime_new_ok (parts : list Z) (dt : datetime) :
  datetime_new parts = Ok dt →
  (1 ≤ year dt ≤ 9999 ∧ 1 ≤ month dt ≤ 12 ∧ 1 ≤ day dt ≤ 31 ∧
   0 ≤ hour dt ≤ 23 ∧ 0 ≤ minute dt ≤ 59 ∧ 0 ≤ second dt ≤ 59)%Z.
Proof.
  unfold datetime_new.
  destruct parts as [|y [|m [|d [|h [|mi [|s [|? ?]]]]]]]; try done;
    intros [-> ?]%check_datetime_ok; done.
Qed.

Lemma digit_inj (a b : Z) : digit a = digit b → (a mod 10 = b mod 10)%Z.
Proof.
  unfold digit. intros H.
  assert (Z.to_N (a mod 10) = Z.to_N (b mod 10)) as H' by lia.
  apply Z2N.inj in H'; [done|..]; apply Z.mod_pos_bound; lia.
Qed.

Lemma pad2_inj (n m : Z) :
  (0 ≤ n < 100)%Z → (0 ≤ m < 100)%Z → pad2 n = pad2 m → n = m.
Proof.
  intros Hn Hm [= H1%digit_inj H0%digit_inj].
  Z.div_mod_to_equations. lia.
Qed.

Lemma str_inj (s t : string) : str s = str t → s = t.
Proof.
  unfold str. intros H.
  rewrite <- (string_of_list_ascii_of_string s),
          <- (string_of_list_ascii_of_string t).
  f_equal. revert H.
  generalize (list_ascii_of_string s) (list_ascii_of_string t).
  intros l. induction l as [|a l IH]; intros [|b k]; simpl; try done.
  intros [= Hab Hlk]. f_equal; [|by apply IH].
  by rewrite <- (ascii_N_embedding a), <- (ascii_N_embedding b), Hab.
Qed.

Lemma to_uint_not_nil (n : N) : N.to_uint n ≠ Decimal.Nil.
Proof. destruct n; [done|]. apply DecimalPos.Unsigned.to_uint_nonnil. Qed.

Lemma decimal_inj (a b : Z) :
  (0 ≤ a)%Z → (0 ≤ b)%Z → decimal a = decimal b → a = b.
Proof.
  unfold decimal. intros Ha Hb H%str_inj.
  apply (f_equal NilZero.uint_of_string) in H.
  rewrite !NilZero.usu in H by apply to_uint_not_nil.
  injection H as H. apply DecimalN.Unsigned.to_uint_inj in H.
  by apply Z2N.inj.
Qed.

Lemma string_of_uint_digits (d : Decimal.uint) :
  Forall (λ c, (48 ≤ c ≤ 57)%N) (str (NilEmpty.string_of_uint d)).
Proof.
  induction d; unfold str; simpl; [constructor|..];
    (constructor; [lia|exact IHd]).
Qed.

(** The year is written with digits only. *)
Lemma decimal_digits (n : Z) : Forall (λ c, (48 ≤ c ≤ 57)%N) (decimal n).
Proof.
  unfold decimal. pose proof (to_uint_not_nil (Z.to_N n)) as Hnil.
  pose proof (string_of_uint_digits (N.to_uint (Z.to_N n))) as H.
  by destruct (N.to_uint (Z.to_N n)).
Qed.

(** Two texts cut at the first occurrence of the same mark. *)
Lemma app_pivot (x : char) (l1 l2 r1 r2 : pystr) :
  x ∉ l1 → x ∉ l2 → l1 ++ x :: r1 = l2 ++ x :: r2 → l1 = l2 ∧ r1 = r2.
Proof.
  revert l2. induction l1 as [|a l1 IH]; intros [|b l2] H1 H2; simpl.
  - by intros [= ->].
  - intros [= -> _]. by apply not_elem_of_cons in H2 as [? _].
  - intros [= -> _]. by apply not_elem_of_cons in H1 as [? _].
  - intros [= -> H].
    apply not_elem_of_cons in H1 as [_ H1].
    apply not_elem_of_cons in H2 as [_ H2].
    destruct (IH l2 H1 H2 H) as [-> ->]. done.
Qed.

(** The formatted publish time tells the time to the minute: two time
    tuples that [datetime] accepts and that are formatted alike agree in
    year, month, day, hour and minute (the seconds are not shown).  The
    year has as many digits as it needs; the sign that follows it is not
    a digit, and so ends it. *)
Theorem strftime_to_the_minute (parts1 parts2 : list Z) (dt1 dt2 : datetime) :
  datetime_new parts1 = Ok dt1 →
  datetime_new parts2 = Ok dt2 →
  strftime dt1 = strftime dt2 →
  year dt1 = year dt2 ∧ month dt1 = month dt2 ∧ day dt1 = day dt2 ∧
  hour dt1 = hour dt2 ∧ minute dt1 = minute dt2.
Proof.
  intros H1%datetime_new_ok H2%datetime_new_ok Hs.
  unfold strftime in Hs.
  assert (∀ n, 24180%N ∉ decimal n) as Hmark.
  { intros n Hin. pose proof (decimal_digits n) as Hd.
    rewrite Forall_forall in Hd. apply Hd in Hin. lia. }
  apply app_pivot in Hs as [Hy Hrest]; [|apply Hmark..].
  assert (pad2 (month dt1) = pad2 (month dt2) ∧
          pad2 (day dt1) = pad2 (day dt2) ∧
          pad2 (hour dt1) = pad2 (hour dt2) ∧
          pad2 (minute dt1) = pad2 (minute dt2)) as (Hm & Hd & Hh & Hmi).
  { unfold pad2 in *. simpl in Hrest. injection Hrest. intros. subst.
    repeat split; congruence. }
  split; [apply decimal_inj; [lia..|done]|].
  repeat split; apply pad2_inj; try lia; done.
Qed.

Lemma strftime_to_the_minute_witness :
  strftime (mk_datetime 999 3 5 9 7 1)
    = [57; 57; 57; 24180; 48; 51; 26376; 48; 53; 26085; 32;
       48; 57; 58; 48; 55]%N ∧
  year (mk_datetime 999 3 5 9 7 1) = year (mk_datetime 999 3 5 9 7 59) ∧
  month (mk_datetime 999 3 5 9 7 1) = month (mk_datetime 999 3 5 9 7 59) ∧
  day (mk_datetime 999 3 5 9 7 1) = day (mk_datetime 999 3 5 9 7 59) ∧
  hour (mk_datetime 999 3 5 9 7 1) = hour (mk_datetime 999 3 5 9 7 59) ∧
  minute (mk_datetime 999 3 5 9 7 1) = minute (mk_datetime 999 3 5 9 7 59).
Proof.
  split; [vm_compute; reflexivity|].
  apply (strftime_to_the_minute [999; 3; 5; 9; 7; 1]%Z [999; 3; 5; 9; 7; 59]%Z);
    reflexivity.
Defined.

(** ** Raw publish text in the card *)

(** When an entry has no structured publish time, its raw publish text
    goes into the article and from there into the card, between the
    calendar sign and the closing tag of the date line, as it is. *)
Theorem fetch_news_raw_published_in_card parse (query : pystr) (num : Z)
    (articles : list article) (url : pystr) (f : feed)
    (i : nat) (a : article) (e : Entry.t) (raw : pystr) :
  fetch_news parse query num = Ok (articles, url) →
  parse url = Ok f →
  articles !! i = Some a →
  slice_to (entries f) num !! i = Some e →
  Entry.published_parsed e = None ∨ Entry.published_parsed e = Some None
    ∨ Entry.published_parsed e = Some (Some []) →
  Entry.published e = Some raw →
  published a = raw ∧
  ∃ before after,
    card a = before ++ div_open "card-date" ++ [128467; 65039; 32]%N
             ++ raw ++ str "</div>" ++ after.
Proof.
  intros Hf Hp Ha He Hno Hraw.
  destruct (fetch_news_lookup _ _ _ _ _ _ _ _ Hf Hp Ha) as (e' & He' & Hea).
  rewrite He in He'. injection He' as <-.
  apply fetch_news_entry_ok in Hea as (t & l & _ & _ & ->).
  cbn [published]. rewrite entry_published_raw by done. rewrite Hraw.
  split; [done|].
  exists (div_open "news-card"
          ++ str "  " ++ div_open "card-title" ++ escape t ++ str "</div>"
          ++ str "  ").
  eexists. unfold card. cbn [title link published summary getattr].
  rewrite <- !app_assoc. reflexivity.
Qed.

Lemma fetch_news_raw_published_in_card_witness :
  published raw_date_article = str "<img src=x>" ∧
  ∃ before after,
    card raw_date_article
      = before ++ div_open "card-date" ++ [128467; 65039; 32]%N
        ++ str "<img src=x>" ++ str "</div>" ++ after.
Proof.
  apply (fetch_news_raw_published_in_card
           (serve (mk_feed false [raw_date])) (str "AI") 20
           [raw_date_article] (feed_url (str "AI")) (mk_feed false [raw_date])
           0 raw_date_article raw_date).
  - vm_compute. reflexivity.
  - reflexivity.
  - reflexivity.
  - reflexivity.
  - by left.
  - reflexivity.
Defined.

(** ** The grid as a whole *)

Lemma place_cards_perm (articles : list article) (idx : nat)
    (left right : list pystr) :
  fst (place_cards idx articles left right)
    ++ snd (place_cards idx articles left right)
  ≡ₚ left ++ right ++ map card articles.
Proof.
  revert idx left right.
  induction articles as [|a rest IH]; intros idx left right;
    cbn [place_cards map].
  - by rewrite app_nil_r.
  - destruct (idx mod 2 =? 0); lazy iota; rewrite IH.
    + rewrite <- !app_assoc. simpl. apply Permutation_app_head.
      by rewrite Permutation_middle.
    + rewrite <- !app_assoc. simpl. apply Permutation_app_head.
      apply Permutation_app_head. done.
Qed.

(** Every article is drawn once: the two columns together hold the cards
    of the articles, each as often as it occurs in the list, and the left
    column is as long as the right one or longer by one. *)
Theorem render_articles_all_cards (articles : list article) :
  articles ≠ [] →
  ∃ left right,
    render_articles articles = Cards left right ∧
    left ++ right ≡ₚ map card articles ∧
    (length left = length right ∨ length left = S (length right)).
Proof.
  intros Hne.
  destruct (place_cards_spec articles 0 [] []) as (l & r & Hp & Hll & Hrl & _);
    [done..|].
  cbn [app Nat.add] in Hp, Hll, Hrl.
  exists l, r. split; [|split].
  - unfold render_articles. destruct articles; [done|]. by rewrite Hp.
  - pose proof (place_cards_perm articles 0 [] []) as Hperm.
    by rewrite Hp in Hperm.
  - rewrite Hll, Hrl. destruct (Nat.even (length articles)) eqn:Hev.
    + left. by apply div2_succ_even.
    + right. by apply div2_succ_odd.
Qed.

Lemma render_articles_all_cards_witness :
  ∃ left right,
    render_articles
      [numbered_article "0"; numbered_article "1"; numbered_article "2"]
      = Cards left right ∧
    left ++ right
      ≡ₚ map card
           [numbered_article "0"; numbered_article "1"; numbered_article "2"] ∧
    (length left = length right ∨ length left = S (length right)).
Proof.
  apply (render_articles_all_cards
           [numbered_article "0"; numbered_article "1"; numbered_article "2"]).
  discriminate.
Defined.

(** ** From the fetch to the page *)

Lemma div2_succ_add (n : nat) : Nat.div2 (S n) + Nat.div2 n = n.
Proof.
  destruct (Nat.even n) eqn:Hev.
  - rewrite div2_succ_even by done.
    apply Nat.even_spec in Hev as [m ->]. rewrite Nat.div2_double. lia.
  - rewrite div2_succ_odd by done.
    assert (Nat.odd n = true) as [m ->]%Nat.odd_spec
      by (by rewrite <- Nat.negb_even, Hev).
    replace (2 * m + 1) with (S (2 * m)) by lia.
    rewrite Nat.div2_succ_double. lia.
Qed.

(** What the page shows for a fetch that returned: the badge counts the
    entries taken; with none, the empty-state message is drawn and no
    card; otherwise two columns that hold as many cards as the badge
    says. *)
Theorem main_content_shows parse (query encoded : pystr) (num : Z) (f : feed)
    (n : nat) (area : main_area) :
  quote query = Ok encoded →
  parse (feed_url encoded) = Ok f →
  main_content parse query num = Ok (n, area) →
  n = length (slice_to (entries f) num) ∧
  (n = 0 → area = EmptyState empty_state) ∧
  (0 < n → ∃ left right,
     area = Cards left right ∧ length left + length right = n).
Proof.
  intros Hq Hp. unfold main_content.
  destruct (fetch_news parse query num) as [[articles url]|x] eqn:Hf; [|done].
  simpl. intros [= <- <-].
  apply fetch_news_ok in Hf as (enc & f' & Hq' & -> & Hf' & H2).
  rewrite Hq in Hq'. injection Hq' as <-.
  rewrite Hp in Hf'. injection Hf' as <-.
  split; [symmetry; by eapply Forall2_length|]. split.
  - intros Hn. by destruct articles.
  - intros Hn.
    destruct (place_cards_spec articles 0 [] []) as (l & r & Hpc & Hll & Hrl & _);
      [done..|].
    cbn [app Nat.add] in Hpc, Hll, Hrl.
    exists l, r. split.
    + unfold render_articles. destruct articles; [simpl in Hn; lia|].
      by rewrite Hpc.
    + rewrite Hll, Hrl. apply div2_succ_add.
Qed.

Lemma main_content_shows_witness :
  main_content (serve (mk_feed true [])) (str "AI") 15
    = Ok (0, EmptyState empty_state) ∧
  0 = length (slice_to (entries (mk_feed true [])) 15) ∧
  (0 = 0 → EmptyState empty_state = EmptyState empty_state) ∧
  (0 < 0 → ∃ left right,
     EmptyState empty_state = Cards left right ∧
     length left + length right = 0).
Proof.
  split; [reflexivity|].
  apply (main_content_shows (serve (mk_feed true [])) (str "AI") (str "AI") 15
                            (mk_feed true []) 0 (EmptyState empty_state));
    reflexivity.
Defined.

(** ** The sidebar *)

Lemma text_input_new (page : option text_field) (value : pystr) :
  (∀ w, page = Some w → created_with w ≠ value) →
  text_input page value = (value, Some (mk_text_field value value)).
Proof.
  intros H. unfold text_input. destruct page as [w|]; [|done].
  destruct (decide _) as [Heq|]; [|done]. by destruct (H w).
Qed.

(** Each of the six quick tags works the same way: on a page with no
    override pending, a click on the tag ends its run with a rerun and
    fetches nothing; the run that follows fetches with the tag as the
    query, whatever the field showed, and leaves no override behind. *)
Theorem quick_tag_any (tag : pystr) (s : session) (n1 n2 : Z) :
  tag ∈ quick_tags →
  session_state s !! "quick_query" = None →
  ∃ s1 s2,
    script_run (click tag) n1 s = (s1, Rerun) ∧
    script_run no_click n2 s1 = (s2, Fetch tag n2) ∧
    field s2 = Some (mk_text_field tag tag) ∧
    session_state s2 = session_state s.
Proof.
  intros Htag Hq.
  assert (tag ≠ str "Artificial Intelligence" ∧
          ∀ ss, tag_buttons (click tag) quick_tags ss
                = (<["quick_query" := tag]> ss, true)) as [Hne Hloop].
  { unfold quick_tags in Htag.
    repeat (apply elem_of_cons in Htag as [->|Htag]); [..|by inversion Htag];
      (split; [discriminate|reflexivity]). }
  assert (∃ q1, text_input (field s) (str "Artificial Intelligence")
                = (q1, Some (mk_text_field (str "Artificial Intelligence") q1)))
    as [q1 Hq1].
  { destruct (field s) as [[c t]|]; simpl; [|eauto].
    destruct (decide _) as [<-|]; simpl; eauto. }
  exists (mk_session (<["quick_query" := tag]> (session_state s))
            (Some (mk_text_field (str "Artificial Intelligence") q1))),
         (mk_session (session_state s) (Some (mk_text_field tag tag))).
  split; [|split; [|done]].
  - unfold script_run, pop. by rewrite Hq, Hq1, Hloop.
  - unfold script_run, pop. cbn [session_state field].
    rewrite lookup_insert_eq, tag_buttons_no_click.
    rewrite text_input_new.
    2: { intros w [= <-]. simpl. congruence. }
    rewrite delete_insert_id by done. reflexivity.
Qed.

Lemma quick_tag_any_witness :
  ∃ s1 s2,
    script_run (click [33258; 21205; 36939; 36578]%N) 15 bitcoin_page
      = (s1, Rerun) ∧
    script_run no_click 15 s1 = (s2, Fetch [33258; 21205; 36939; 36578]%N 15) ∧
    field s2 = Some (mk_text_field [33258; 21205; 36939; 36578]%N
                                   [33258; 21205; 36939; 36578]%N) ∧
    session_state s2 = session_state bitcoin_page.
Proof.
  apply (quick_tag_any [33258; 21205; 36939; 36578]%N bitcoin_page 15 15).
  - unfold quick_tags. do 5 apply list_elem_of_further. apply list_elem_of_here.
  - vm_compute. reflexivity.
Defined.

(** Without a click and with no override pending, a run calls
    [text_input] with the script's default.  If the field on the page was
    created with that default, the query fetched is the text the user
    typed into it, the number is the slider's, and the run leaves the
    session as it was.  If the field was created by a quick tag, it is
    replaced: the typed text is dropped and the query fetched is the
    default. *)
Theorem typed_text_is_query (s : session) (w : text_field) (text : pystr)
    (num_articles : Z) :
  session_state s !! "quick_query" = None →
  field s = Some w →
  (created_with w = str "Artificial Intelligence" →
   script_run no_click num_articles (type_text text s)
     = (type_text text s, Fetch text num_articles)) ∧
  (created_with w ≠ str "Artificial Intelligence" →
   script_run no_click num_articles (type_text text s)
     = (mk_session (session_state s)
          (Some (mk_text_field (str "Artificial Intelligence")
                               (str "Artificial Intelligence"))),
        Fetch (str "Artificial Intelligence") num_articles)).
Proof.
  intros Hq Hw. unfold script_run, pop, type_text. rewrite Hw.
  cbn [session_state field]. rewrite Hq, tag_buttons_no_click.
  unfold text_input. cbn [created_with shown]. split; intros Hc.
  - rewrite Hc. destruct (decide _) as [_|Hne]; [done|]. by destruct Hne.
  - by destruct (decide _) as [Heq|_].
Qed.

Lemma typed_text_is_query_witness :
  script_run no_click 25
    (type_text (str "Claude") (fst (script_run no_click 15 (mk_session ∅ None))))
  = (type_text (str "Claude") (fst (script_run no_click 15 (mk_session ∅ None))),
     Fetch (str "Claude") 25) ∧
  script_run no_click 25 (type_text (str "Claude") llm_page)
  = (mk_session (session_state llm_page)
       (Some (mk_text_field (str "Artificial Intelligence")
                            (str "Artificial Intelligence"))),
     Fetch (str "Artificial Intelligence") 25).
Proof.
  split.
  - apply (typed_text_is_query
             (fst (script_run no_click 15 (mk_session ∅ None)))
             (mk_text_field (str "Artificial Intelligence")
                            (str "Artificial Intelligence")));
      [vm_compute; reflexivity..|reflexivity].
  - apply (typed_text_is_query llm_page
             (mk_text_field (str "LLM") (str "LLM")));
      [reflexivity..|discriminate].
Defined.

Lemma script_run_fetch_consumes_witness :
  session_state
    (mk_session ∅ (Some (mk_text_field (str "LLM") (str "LLM"))))
    !! "quick_query" = None.
Proof.
  apply (script_run_fetch_consumes no_click 15
           (mk_session {[ "quick_query" := str "LLM" ]} None)
           (mk_session ∅ (Some (mk_text_field (str "LLM") (str "LLM"))))
           (str "LLM") 15).
  vm_compute. reflexivity.
Defined.
